(** * app.py: the data synthesis and reshaping pipeline

    A shallow embedding of [make_data] (the generator, lines 10-55 of
    [src/app.py]) and of the module-level reshaping code (the shaper, lines
    69-96 and 123-125), with the properties of the specification stated
    over it.

    Modelling conventions.
    - A normalised [pd.Timestamp] (midnight, no time component) is its day
      ordinal, an integer counting days since the epoch; a [pd.Timedelta]
      of whole days is a difference of ordinals.  The wall clock is an
      integer count of nanoseconds.  The 64-bit range of pandas timestamps
      is not modelled: calendar arithmetic is exact.
    - A float64 is a rational; arithmetic on floats is exact (rounding of
      the binary format is not modelled).  NaN and NaT are [None].
    - An int64 is an integer; the conversion [astype(int)] has its
      out-of-range case written out.
    - [np.random.Generator] is an interface ([NumpyGenerator]); the code
      threads its state through every draw, here through a state and
      exception monad. *)

From Stdlib Require Import ZArith QArith Qround Qabs List String Bool Lia Lqa.
From Stdlib Require Import Sorting.Sorted Sorting.Permutation.
From Stdlib Require Import Structures.OrderedTypeEx.
Import ListNotations.

Local Open Scope Z_scope.

(** ** Outcomes of a Python call *)

Inductive exn : Type :=
| KeyError (key : string)
| ValueError (msg : string).

Inductive result (A : Type) : Type :=
| Ok (a : A)
| Raise (e : exn).
Arguments Ok {A} a.
Arguments Raise {A} e.

(** ** Data model *)

(** One row of [df]: the tuple appended at line 37, and the [weekday]
    column added at line 41. *)
Record DailyRecord : Type := mkDailyRecord {
  date : Z;
  city : string;
  orders : Z;
  revenue : Q;
  lat : Q;
  lon : Q;
  weekday : string
}.

(** One row of [geo]: the tuple appended at line 52. *)
Record GeoPoint : Type := mkGeoPoint {
  geo_city : string;
  geo_lat : Q;
  geo_lon : Q;
  volume : Q
}.

(** ** numpy and pandas primitives used by [make_data] *)

Definition ns_per_day : Z := 86400000000000.

(** [pd.Timestamp.normalize]: the calendar day of a wall-clock instant. *)
Definition normalize (now_ns : Z) : Z := now_ns / ns_per_day.

(** [pd.date_range(start, end, freq="D")]: every day from [start] to [end]
    inclusive, empty when [start] is after [end]. *)
Definition date_range (start stop : Z) : list Z :=
  map (fun i => start + Z.of_nat i) (seq 0 (Z.to_nat (stop - start + 1))).

(** [Series.dt.day_name]: day 0 of the epoch is a Thursday. *)
Definition day_name (d : Z) : string :=
  match (d + 3) mod 7 with
  | 0 => "Monday"
  | 1 => "Tuesday"
  | 2 => "Wednesday"
  | 3 => "Thursday"
  | 4 => "Friday"
  | 5 => "Saturday"
  | _ => "Sunday"
  end%string.

(** [np.linspace(start, stop, num)]. *)
Definition linspace (start stop : Q) (num : nat) : list Q :=
  let step := match num with
              | O | S O => stop - start
              | S k => (stop - start) / inject_Z (Z.of_nat k)
              end%Q in
  map (fun i => start + inject_Z (Z.of_nat i) * step)%Q (seq 0 num).

(** [np.clip(x, lo, None)]. *)
Definition clip_min (x lo : Q) : Q := if Qle_bool lo x then x else lo.

(** [ndarray.round()]: nearest integer, ties to the even neighbour. *)
Definition np_round (x : Q) : Z :=
  let f := Qfloor x in
  match (x - inject_Z f ?= 1 # 2)%Q with
  | Lt => f
  | Gt => f + 1
  | Eq => if Z.even f then f else f + 1
  end.

Definition int64_min : Z := - 2 ^ 63.
Definition int64_max : Z := 2 ^ 63 - 1.

(** [astype(int)] on an integral float: exact inside the int64 range, the
    indefinite value [int64_min] outside of it. *)
Definition astype_int (z : Z) : Z :=
  if (int64_min <=? z) && (z <=? int64_max) then z else int64_min.

(** Python's [max(0, x)] followed by [float]. *)
Definition max0 (x : Q) : Q := if Qle_bool x 0 then 0%Q else x.

(** ** The random generator interface *)

Class NumpyGenerator (G : Type) : Type := {
  default_rng : Z -> G;                       (* np.random.default_rng(seed) *)
  rng_integers : Z -> Z -> G -> Z * G;        (* rng.integers(low, high) *)
  rng_normal : Q -> Q -> G -> Q * G           (* rng.normal(loc, scale), one draw *)
}.

(** What numpy documents about the draws: [integers] is uniform on the
    half-open range, and a normal draw is a finite double; the ziggurat
    sampler over 53-bit uniforms stays well inside 64 standard deviations. *)
Class GeneratorContract (G : Type) `{NumpyGenerator G} : Prop := {
  integers_range : forall low high g,
    low < high -> low <= fst (rng_integers low high g) < high;
  normal_range : forall loc scale g,
    (0 <= scale)%Q ->
    (Qabs (fst (rng_normal loc scale g) - loc) <= 64 * scale)%Q
}.

(** ** The state and exception monad of [make_data] *)

Section Monad.
Context {G : Type}.

Definition M (A : Type) : Type := G -> result (A * G).

Definition ret {A} (a : A) : M A := fun g => Ok (a, g).

Definition bind {A B} (m : M A) (k : A -> M B) : M B :=
  fun g => match m g with
           | Ok (a, g') => k a g'
           | Raise e => Raise e
           end.

Definition raise {A} (e : exn) : M A := fun _ => Raise e.

Definition draw {A} (f : G -> A * G) : M A := fun g => Ok (f g).
End Monad.

Notation "x <- m ;; k" := (bind m (fun x => k))
  (at level 61, m at next level, right associativity).

Section Generator.
Context {G : Type} `{NumpyGenerator G}.

(** [rng.normal(loc, scale, size=n)]: [n] successive draws. *)
Fixpoint normal_array (loc scale : Q) (n : nat) : M (G:=G) (list Q) :=
  match n with
  | O => ret []
  | S k => x <- draw (rng_normal loc scale) ;;
           xs <- normal_array loc scale k ;;
           ret (x :: xs)
  end.

(** The dict [cities] of lines 16-21, in insertion order. *)
Definition cities : list (string * (Q * Q)) :=
  [ ("Pune", (18.5204, 73.8567));
    ("Mumbai", (19.0760, 72.8777));
    ("Delhi", (28.6139, 77.2090));
    ("Bengaluru", (12.9716, 77.5946)) ]%string%Q.

(** The dict of lines 31-33. *)
Definition prices : list (string * Q) :=
  [ ("Pune", 350); ("Mumbai", 420); ("Delhi", 390); ("Bengaluru", 410) ]%string%Q.

Fixpoint dict_get {V} (d : list (string * V)) (k : string) : option V :=
  match d with
  | [] => None
  | (k', v) :: d' => if String.eqb k' k then Some v else dict_get d' k
  end.

(** Subscripting a dict raises [KeyError] on a missing key. *)
Definition subscript {V} (d : list (string * V)) (k : string) : M (G:=G) V :=
  match dict_get d k with
  | Some v => ret v
  | None => raise (KeyError k)
  end.

(** Python's [zip] of three sequences: as long as the shortest. *)
Fixpoint zip3 {A B C} (xs : list A) (ys : list B) (zs : list C)
  : list (A * B * C) :=
  match xs, ys, zs with
  | x :: xs', y :: ys', z :: zs' => (x, y, z) :: zip3 xs' ys' zs'
  | _, _, _ => []
  end.

(** Element-wise arithmetic on arrays of one length. *)
Fixpoint zip_with {A B C} (f : A -> B -> C) (xs : list A) (ys : list B)
  : list C :=
  match xs, ys with
  | x :: xs', y :: ys' => f x y :: zip_with f xs' ys'
  | _, _ => []
  end.

(** Line 28, one element. *)
Definition order_count (base_orders : Z) (noise trend : Q) : Z :=
  astype_int (np_round (clip_min (inject_Z base_orders + noise + trend) 10)).

(** The body of the loop of lines 24-37 for one city: the rows it
    appends. *)
Definition city_rows (dates : list Z) (entry : string * (Q * Q))
  : M (G:=G) (list DailyRecord) :=
  let '(c, (la, lo)) := entry in
  base_orders <- draw (rng_integers 80 200) ;;
  noise <- normal_array 0 20 (List.length dates) ;;
  let trend := linspace (-10) 10 (List.length dates) in
  let orders := zip_with (order_count base_orders) noise trend in
  price <- subscript prices c ;;
  eps <- normal_array 0 15 (List.length dates) ;;
  let revenue := zip_with (fun o e => inject_Z o * (price + e))%Q orders eps in
  ret (map (fun '(d, o, r) => mkDailyRecord d c o r la lo (day_name d))
           (zip3 dates orders revenue)).

(** A [for] loop that appends to a list. *)
Fixpoint for_each {A B} (body : A -> M (G:=G) (list B)) (xs : list A)
  : M (G:=G) (list B) :=
  match xs with
  | [] => ret []
  | x :: xs' => out <- body x ;;
                rest <- for_each body xs' ;;
                ret (out ++ rest)
  end.

(** Lines 49-52: one point of the cloud. *)
Definition geo_point (entry : string * (Q * Q)) : M (G:=G) (list GeoPoint) :=
  let '(c, (la, lo)) := entry in
  jlat <- draw (rng_normal 0 0.01) ;;
  jlon <- draw (rng_normal 0 0.01) ;;
  v <- draw (rng_normal 100 40) ;;
  ret [mkGeoPoint c (la + jlat) (lo + jlon) (max0 v)]%Q.

(** Lines 45-52 for one city: [for _ in range(400)]. *)
Definition city_points (entry : string * (Q * Q)) : M (G:=G) (list GeoPoint) :=
  for_each (fun _ : nat => geo_point entry) (seq 0 400).

(** The dates of line 13, from the day [end]. *)
Definition dates_of (today days : Z) : list Z :=
  date_range (today - (days - 1)) today.

Definition make_data_body (now_ns days : Z)
  : M (G:=G) (list DailyRecord * list GeoPoint) :=
  let today := normalize now_ns in
  let dates := dates_of today days in
  rows <- for_each (city_rows dates) cities ;;
  pts <- for_each city_points cities ;;
  ret (rows, pts).

(** [make_data(seed, days)], called when the wall clock reads [now_ns].
    The generator is local to the call and is dropped on return.  The
    memoising decorator of line 9 hands back the value of an earlier call
    with the same arguments; it is not part of this model. *)
Definition make_data (now_ns seed days : Z)
  : result (list DailyRecord * list GeoPoint) :=
  match make_data_body now_ns days (default_rng seed) with
  | Ok (out, _) => Ok out
  | Raise e => Raise e
  end.

(** What a block of rows appended for one city looks like. *)
Definition block_ok (ds : list Z) (entry : string * (Q * Q))
  (rows : list DailyRecord) : Prop :=
  map date rows = ds
  /\ Forall (fun r => city r = fst entry) rows
  /\ (GeneratorContract G -> Forall (fun r => 10 <= orders r) rows).
End Generator.

(** ** The shaper: lines 69-96 and 123-125 *)

(** The options of the metric select box (line 65). *)
Inductive Metric : Type := Orders | Revenue.

(** [df[metric]] as a float column. *)
Definition column (m : Metric) (r : DailyRecord) : Q :=
  match m with
  | Orders => inject_Z (orders r)
  | Revenue => revenue r
  end.

(** The sidebar controls of lines 64-67. *)
Record ViewParameters : Type := mkView {
  city_filter : list string;
  metric : Metric;
  days_back : Z;
  smooth : bool
}.

(** A data frame: rows with their index labels. *)
Definition Frame : Type := list (nat * DailyRecord).

(** The [RangeIndex] that [pd.DataFrame(rows, ...)] gives [df]. *)
Definition frame_of (rows : list DailyRecord) : Frame :=
  combine (seq 0 (List.length rows)) rows.

Definition dates (fr : Frame) : list Z := map (fun x => date (snd x)) fr.

(** [df["city"].isin(city_filter)] *)
Definition isin (sel : list string) (x : nat * DailyRecord) : bool :=
  existsb (String.eqb (city (snd x))) sel.

(** Line 69. *)
Definition df_selected (df : list DailyRecord) (p : ViewParameters) : Frame :=
  filter (isin (city_filter p)) (frame_of df).

(** [Series.max()]: [NaT] on an empty column. *)
Fixpoint series_max (l : list Z) : option Z :=
  match l with
  | [] => None
  | d :: l' => match series_max l' with
               | None => Some d
               | Some m => Some (Z.max d m)
               end
  end.

(** Line 70; [NaT - Timedelta] is [NaT]. *)
Definition cutoff (df : list DailyRecord) (p : ViewParameters) : option Z :=
  option_map (fun m => m - (days_back p - 1)) (series_max (dates (df_selected df p))).

(** [date >= cutoff]; every comparison with [NaT] is false. *)
Definition ge_cutoff (c : option Z) (x : nat * DailyRecord) : bool :=
  match c with
  | Some c => c <=? date (snd x)
  | None => false
  end.

(** Line 71. *)
Definition df_view (df : list DailyRecord) (p : ViewParameters) : Frame :=
  filter (ge_cutoff (cutoff df p)) (df_selected df p).

(** *** Smoothing, lines 74-80 *)

(** The order of [sort_values(["city", "date"])]. *)
Definition key_leb (a b : nat * DailyRecord) : bool :=
  match String.compare (city (snd a)) (city (snd b)) with
  | Lt => true
  | Eq => date (snd a) <=? date (snd b)
  | Gt => false
  end.

Fixpoint insert_row (x : nat * DailyRecord) (l : Frame) : Frame :=
  match l with
  | [] => [x]
  | y :: l' => if key_leb x y then x :: l else y :: insert_row x l'
  end.

(** [sort_values] on several keys is a stable sort. *)
Definition sort_values (fr : Frame) : Frame := fold_right insert_row [] fr.

(** The distinct values of a column, in order of first appearance. *)
Fixpoint unique (l : list string) : list string :=
  match l with
  | [] => []
  | c :: l' => c :: filter (fun c' => negb (String.eqb c c')) (unique l')
  end.

Definition Qsum (l : list Q) : Q := fold_left Qplus l 0%Q.

Definition mean (l : list Q) : Q := (Qsum l / inject_Z (Z.of_nat (List.length l)))%Q.

(** The observations a trailing window of [w] rows sees at position [p]. *)
Definition window_at (w : nat) (s : list Q) (p : nat) : list Q :=
  skipn (S p - w) (firstn (S p) s).

(** [s.rolling(w, min_periods=mp).mean()]: NaN while the window holds
    fewer than [mp] observations. *)
Definition rolling_mean (w mp : nat) (s : list Q) : list (option Q) :=
  map (fun p => let win := window_at w s p in
                if (mp <=? List.length win)%nat then Some (mean win) else None)
      (seq 0 (List.length s)).

Definition group_of (c : string) (fr : Frame) : Frame :=
  filter (fun x => String.eqb (city (snd x)) c) fr.

(** [fr.groupby("city")[m].transform(f)]: [f] applied to the values of each
    group, every result carrying the index label of its row. *)
Definition groupby_transform (m : Metric) (f : list Q -> list (option Q))
  (fr : Frame) : list (nat * option Q) :=
  flat_map (fun c => let g := group_of c fr in
                     combine (map fst g) (f (map (fun x => column m (snd x)) g)))
           (unique (map (fun x => city (snd x)) fr)).

(** The right-hand side of the assignment of lines 75-80. *)
Definition smoothed_series (df : list DailyRecord) (p : ViewParameters)
  : list (nat * option Q) :=
  groupby_transform (metric p) (rolling_mean 7 1) (sort_values (df_view df p)).

Fixpoint series_get {V} (s : list (nat * V)) (i : nat) : option V :=
  match s with
  | [] => None
  | (j, v) :: s' => if Nat.eqb j i then Some v else series_get s' i
  end.

(** Assigning a series to a column aligns it on the index; a label the
    series lacks gets NaN. *)
Definition align (fr : Frame) (s : list (nat * option Q)) : list (option Q) :=
  map (fun x => match series_get s (fst x) with
                | Some v => v
                | None => None
                end) fr.

(** [df_view["smoothed"]]: the column exists only when [smooth] is set. *)
Definition smoothed (df : list DailyRecord) (p : ViewParameters)
  : option (list (option Q)) :=
  if smooth p then Some (align (df_view df p) (smoothed_series df p)) else None.

(** *** The pivot, lines 93-96 *)

Record WideTable : Type := mkWide {
  wt_index : list Z;
  wt_columns : list string;
  wt_values : list (list (option Q))
}.

Definition key_eqb (k k' : Z * string) : bool :=
  (fst k =? fst k') && String.eqb (snd k) (snd k').

(** One more observation for the group [k]. *)
Fixpoint agg_add (k : Z * string) (v : Q) (acc : list (Z * string * Q))
  : list (Z * string * Q) :=
  match acc with
  | [] => [(k, v)]
  | (k', s) :: acc' =>
      if key_eqb k k' then (k', (s + v)%Q) :: acc' else (k', s) :: agg_add k v acc'
  end.

(** [groupby(["date", "city"])[m].agg("sum")] *)
Definition groupby_sum (m : Metric) (fr : Frame) : list (Z * string * Q) :=
  fold_left (fun acc x => agg_add (date (snd x), city (snd x)) (column m (snd x)) acc)
            fr [].

Fixpoint agg_get (acc : list (Z * string * Q)) (k : Z * string) : option Q :=
  match acc with
  | [] => None
  | (k', s) :: acc' => if key_eqb k k' then Some s else agg_get acc' k
  end.

Section SortUnique.
Context {A : Type} (cmp : A -> A -> comparison).

Fixpoint insert_unique (x : A) (l : list A) : list A :=
  match l with
  | [] => [x]
  | y :: l' => match cmp x y with
               | Lt => x :: l
               | Eq => l
               | Gt => y :: insert_unique x l'
               end
  end.

(** The sorted distinct labels of an axis. *)
Definition sort_unique (l : list A) : list A := fold_right insert_unique [] l.
End SortUnique.

(** [pivot_table(index="date", columns="city", values=m, aggfunc="sum")
    .sort_index()]: the group sums unstacked on the city level; a
    (date, city) pair without a group is NaN. *)
Definition pivot_table (m : Metric) (fr : Frame) : WideTable :=
  let agg := groupby_sum m fr in
  let idx := sort_unique Z.compare (map (fun kv => fst (fst kv)) agg) in
  let cols := sort_unique String.compare (map (fun kv => snd (fst kv)) agg) in
  {| wt_index := idx;
     wt_columns := cols;
     wt_values := map (fun d => map (fun c => agg_get agg (d, c)) cols) idx |}.

(** Line 93: the frame pivoted is [df_view], the values are [metric]. *)
Definition pivot (df : list DailyRecord) (p : ViewParameters) : WideTable :=
  pivot_table (metric p) (df_view df p).

Fixpoint index_of {A} (eqb : A -> A -> bool) (x : A) (l : list A) : option nat :=
  match l with
  | [] => None
  | y :: l' => if eqb y x then Some O else option_map S (index_of eqb x l')
  end.

(** [t.loc[d, c]]: [None] when [d] or [c] is not a label of the table
    (pandas raises [KeyError]), otherwise the cell, itself NaN or a
    number. *)
Definition wt_cell (t : WideTable) (d : Z) (c : string) : option (option Q) :=
  match index_of Z.eqb d (wt_index t), index_of String.eqb c (wt_columns t) with
  | Some i, Some j =>
      match nth_error (wt_values t) i with
      | Some row => nth_error row j
      | None => None
      end
  | _, _ => None
  end.

(** Lines 123-125: the [value] column of the frame given to Altair. *)
Definition alt_value (df : list DailyRecord) (p : ViewParameters)
  : list (option Q) :=
  match smoothed df p with
  | Some col => col
  | None => map (fun x => Some (column (metric p) (snd x))) (df_view df p)
  end.

(** ** Vocabulary of the statements *)

Definition obs_key (x : nat * DailyRecord) : Z * string :=
  (date (snd x), city (snd x)).

(** The rows of a frame that fall in the cell [(d, c)]. *)
Definition cell_rows (fr : Frame) (k : Z * string) : Frame :=
  filter (fun x => key_eqb k (obs_key x)) fr.

Definition agg_spec (m : Metric) (acc : list (Z * string * Q)) (fr : Frame) : Prop :=
  forall k,
    match agg_get acc k with
    | None => cell_rows fr k = []
    | Some s => cell_rows fr k <> []
                /\ (s == Qsum (map (fun x => column m (snd x)) (cell_rows fr k)))%Q
    end.

(** The entry of the [smoothed] column at position [i] of [df_view]. *)
Definition smoothed_at (df : list DailyRecord) (p : ViewParameters) (i : nat)
  : option Q :=
  match smoothed df p with
  | Some col => nth i col None
  | None => None
  end.

(** The trailing window of [w] days that ends on day [m]. *)
Definition in_window (m w : Z) (x : nat * DailyRecord) : bool :=
  (m - (w - 1) <=? date (snd x)) && (date (snd x) <=? m).

(** [a] sorts no later than [b] under [sort_values]. *)
Definition key_le (a b : nat * DailyRecord) : Prop := key_leb a b = true.

(** Written from the specification's wording, for comparison with
    [cutoff]: the cutoff counted back from the global maximum, the latest
    date of the whole table, rather than of the selected rows. *)
Definition cutoff_global (df : list DailyRecord) (p : ViewParameters) : option Z :=
  option_map (fun m => m - (days_back p - 1)) (series_max (dates (frame_of df))).

Definition df_view_global (df : list DailyRecord) (p : ViewParameters) : Frame :=
  filter (ge_cutoff (cutoff_global df p)) (df_selected df p).

(** ** A small generator to run the model on *)

(** A counter: the [k]-th draw depends on [k] only. *)
#[export] Instance counter_rng : NumpyGenerator Z := {
  default_rng seed := seed;
  rng_integers low high g := (low + g mod (high - low), g + 1);
  rng_normal loc scale g := ((loc + scale * inject_Z (g mod 7 - 3))%Q, g + 1)
}.

Definition sample_df : list DailyRecord :=
  map (fun i => mkDailyRecord (Z.of_nat i) "Pune"
                              (10 * (Z.of_nat i + 1)) (inject_Z (Z.of_nat i))
                              18.5204 73.8567 (day_name (Z.of_nat i)))
      (seq 0 9)
  ++ [mkDailyRecord 3 "Delhi" 40 7 28.6139 77.2090 (day_name 3)].

Definition sample_view (s : bool) : ViewParameters :=
  mkView ["Pune"; "Delhi"]%string Orders 14 s.

(** ** The rest of the script *)

(** Python's [sorted] on strings: ascending by code point. *)
Fixpoint insert_str (s : string) (l : list string) : list string :=
  match l with
  | [] => [s]
  | t :: l' => if String.leb s t then s :: l else t :: insert_str s l'
  end.

Definition py_sorted (l : list string) : list string := fold_right insert_str [] l.

(** Line 64: [sorted(df["city"].unique())], the options of the
    multiselect and its default. *)
Definition city_options (df : list DailyRecord) : list string :=
  py_sorted (unique (map city df)).

(** The controls as the script first shows them (lines 64-67): every
    city, the metric at index 1, 60 days, smoothing off. *)
Definition default_view (df : list DailyRecord) : ViewParameters :=
  mkView (city_options df) Revenue 60 false.

(** [DataFrame.tail(n)]: the last [n] rows. *)
Definition tail_rows {A} (n : nat) (l : list A) : list A :=
  skipn (List.length l - n) l.

Definition wt_tail (n : nat) (t : WideTable) : WideTable :=
  {| wt_index := tail_rows n (wt_index t);
     wt_columns := wt_columns t;
     wt_values := tail_rows n (wt_values t) |}.

(** Line 109: the table of the bar chart, [pivot.tail(30)]. *)
Definition bar_table (df : list DailyRecord) (p : ViewParameters) : WideTable :=
  wt_tail 30 (pivot df p).

(** A row carries the centre of its city and the name of its day. *)
Definition row_attributes (r : DailyRecord) : Prop :=
  In (city r, (lat r, lon r)) cities /\ weekday r = day_name (date r).

(** * Facts about the numeric primitives *)

Lemma clip_min_ge (x lo : Q) : (lo <= clip_min x lo)%Q.
Proof.
  unfold clip_min. destruct (Qle_bool lo x) eqn:E.
  - now apply Qle_bool_iff.
  - apply Qle_refl.
Qed.

Lemma clip_min_le (x lo hi : Q) : (x <= hi)%Q -> (lo <= hi)%Q -> (clip_min x lo <= hi)%Q.
Proof. unfold clip_min. now destruct (Qle_bool lo x). Qed.

Lemma np_round_ge (x : Q) (z : Z) : (inject_Z z <= x)%Q -> z <= np_round x.
Proof.
  intros Hx. apply Qfloor_resp_le in Hx. rewrite Qfloor_Z in Hx.
  unfold np_round.
  destruct (x - inject_Z (Qfloor x) ?= 1 # 2)%Q; [destruct (Z.even _)|..]; lia.
Qed.

Lemma np_round_le (x : Q) (z : Z) : (x <= inject_Z z)%Q -> np_round x <= z.
Proof.
  intros Hx. pose proof (Qfloor_resp_le _ _ Hx) as Hf. rewrite Qfloor_Z in Hf.
  destruct (Z.eq_dec (Qfloor x) z) as [E|E].
  - assert (Hz : (x == inject_Z z)%Q).
    { apply Qle_antisym; [exact Hx|]. rewrite <- E. apply Qfloor_le. }
    unfold np_round. rewrite E.
    assert (Hc : (x - inject_Z z ?= 1 # 2)%Q = Lt).
    { apply Qlt_alt. rewrite Hz.
      setoid_replace (inject_Z z - inject_Z z)%Q with 0%Q by ring. reflexivity. }
    rewrite Hc. lia.
  - unfold np_round.
    destruct (x - inject_Z (Qfloor x) ?= 1 # 2)%Q; [destruct (Z.even _)|..]; lia.
Qed.

Lemma astype_int_exact (z : Z) : int64_min <= z <= int64_max -> astype_int z = z.
Proof.
  intros [Hl Hu]. unfold astype_int.
  apply Z.leb_le in Hl, Hu. now rewrite Hl, Hu.
Qed.

Lemma linspace_length (a b : Q) (n : nat) : List.length (linspace a b n) = n.
Proof. unfold linspace. now rewrite length_map, length_seq. Qed.

Lemma linspace_trend_range (n : nat) :
  Forall (fun t => -10 <= t <= 10)%Q (linspace (-10) 10 n).
Proof.
  unfold linspace. apply Forall_forall. intros t Ht.
  apply in_map_iff in Ht as (i & <- & Hi). apply in_seq in Hi.
  destruct n as [|[|k]]; [lia| |].
  - assert (i = 0)%nat as -> by lia. cbn. split; discriminate.
  - set (m := inject_Z (Z.of_nat (S k))).
    set (j := inject_Z (Z.of_nat i)).
    assert (Hm : (0 < m)%Q).
    { unfold m. change 0%Q with (inject_Z 0). rewrite <- Zlt_Qlt. lia. }
    assert (Hj : (0 <= j)%Q).
    { unfold j. change 0%Q with (inject_Z 0). rewrite <- Zle_Qle. lia. }
    assert (Hjm : (j <= m)%Q).
    { unfold j, m. rewrite <- Zle_Qle. lia. }
    assert (Hs : (j * ((10 - -10) / m) == (j * 20) / m)%Q).
    { field. intro E. rewrite E in Hm. discriminate. }
    rewrite Hs. split.
    + assert (0 <= j * 20 / m)%Q.
      { apply Qle_shift_div_l; [exact Hm|]. lra. }
      lra.
    + assert (j * 20 / m <= 20)%Q.
      { apply Qle_shift_div_r; [exact Hm|]. lra. }
      lra.
Qed.

(** * Running the generator *)

Section GeneratorFacts.
Context {G : Type} `{NumpyGenerator G}.

Lemma bind_run {A B} (m : M (G:=G) A) (k : A -> M B) (g g' : G) (a : A) :
  m g = Ok (a, g') -> bind m k g = k a g'.
Proof. intros E. unfold bind. now rewrite E. Qed.

Lemma normal_array_run (loc scale : Q) (n : nat) (g : G) :
  exists xs g', normal_array loc scale n g = Ok (xs, g')
                /\ List.length xs = n
                /\ (GeneratorContract G -> (0 <= scale)%Q ->
                    Forall (fun x => Qabs (x - loc) <= 64 * scale)%Q xs).
Proof.
  revert g. induction n as [|n IH]; intros g.
  - exists [], g. cbn. repeat split; constructor.
  - destruct (rng_normal loc scale g) as [x g1] eqn:E.
    destruct (IH g1) as (xs & g' & Hrun & Hlen & Hb).
    exists (x :: xs), g'. split.
    { change (normal_array loc scale (S n))
        with (x0 <- draw (rng_normal loc scale) ;;
              xs0 <- normal_array loc scale n ;; ret (x0 :: xs0)).
      rewrite (bind_run _ _ g g1 x) by (unfold draw; now rewrite E).
      now rewrite (bind_run _ _ g1 g' xs Hrun). }
    split; [cbn; now rewrite Hlen|].
    intros C Hs. constructor; [|now apply Hb].
    pose proof (normal_range loc scale g Hs) as Hr. now rewrite E in Hr.
Qed.

Lemma for_each_run {A B} (P : A -> list B -> Prop)
  (body : A -> M (G:=G) (list B)) (xs : list A) :
  (forall x, In x xs -> forall g, exists out g', body x g = Ok (out, g') /\ P x out) ->
  forall g, exists outs g',
    for_each body xs g = Ok (List.concat outs, g') /\ Forall2 P xs outs.
Proof.
  induction xs as [|x xs IH]; intros Hbody g.
  - exists [], g. split; [reflexivity|constructor].
  - destruct (Hbody x (or_introl eq_refl) g) as (out & g1 & Hrun & HP).
    destruct (IH (fun y Hy => Hbody y (or_intror Hy)) g1)
      as (outs & g' & Hrest & Hall).
    exists (out :: outs), g'. split; [|now constructor].
    change (for_each body (x :: xs))
      with (o <- body x ;; rest <- for_each body xs ;; ret (o ++ rest)).
    rewrite (bind_run _ _ g g1 out Hrun).
    now rewrite (bind_run _ _ g1 g' (List.concat outs) Hrest).
Qed.

Lemma zip_with_length {A B C} (f : A -> B -> C) xs ys :
  List.length xs = List.length ys ->
  List.length (zip_with f xs ys) = List.length xs.
Proof.
  revert ys. induction xs as [|x xs IH]; intros [|y ys] E; cbn in *;
    try discriminate; [reflexivity|]. now rewrite IH by lia.
Qed.

Lemma zip_with_Forall {A B C} (f : A -> B -> C) (P : A -> Prop) (Q : B -> Prop)
  (R : C -> Prop) xs ys :
  (forall x y, P x -> Q y -> R (f x y)) ->
  Forall P xs -> Forall Q ys -> Forall R (zip_with f xs ys).
Proof.
  intros Hf HP. revert ys. induction HP as [|x xs Hx _ IH]; intros ys HQ.
  - destruct ys; constructor.
  - destruct HQ as [|y ys Hy HQ]; cbn; constructor; auto.
Qed.

Lemma zip3_rows (c : string) (la lo : Q) ds os rs :
  List.length os = List.length ds -> List.length rs = List.length ds ->
  let rows := map (fun '(d, o, r) => mkDailyRecord d c o r la lo (day_name d))
                  (zip3 ds os rs) in
  map date rows = ds /\ map orders rows = os /\ Forall (fun r => city r = c) rows.
Proof.
  revert os rs. induction ds as [|d ds IH]; intros [|o os] [|r rs] Ho Hr;
    cbn in *; try discriminate.
  - repeat split; constructor.
  - destruct (IH os rs) as (Hd & Hos & Hc); [lia|lia|].
    cbn in Hd, Hos, Hc. rewrite Hd, Hos. repeat split. now constructor.
Qed.

(** Line 28 never yields less than the floor, given draws in range. *)
Lemma order_count_floor (base : Z) (noise trend : Q) :
  80 <= base < 200 ->
  (Qabs (noise - 0) <= 64 * 20)%Q ->
  (-10 <= trend <= 10)%Q ->
  10 <= order_count base noise trend.
Proof.
  intros Hb Hn Ht. unfold order_count.
  apply Qabs_Qle_condition in Hn.
  set (x := (inject_Z base + noise + trend)%Q).
  assert (Hlo : 10 <= np_round (clip_min x 10)).
  { apply np_round_ge. apply (clip_min_ge x 10). }
  assert (Hhi : np_round (clip_min x 10) <= 1490).
  { apply np_round_le. apply clip_min_le; [|discriminate].
    unfold x. assert (inject_Z base <= inject_Z 200)%Q by (rewrite <- Zle_Qle; lia).
    change (inject_Z 200) with 200%Q in *. change (inject_Z 1490) with 1490%Q.
    lra. }
  rewrite astype_int_exact; [exact Hlo|].
  unfold int64_min, int64_max. lia.
Qed.

Lemma city_rows_run (ds : list Z) (entry : string * (Q * Q)) (g : G) :
  In entry cities ->
  exists rows g', city_rows ds entry g = Ok (rows, g') /\ block_ok ds entry rows.
Proof.
  intros Hin. destruct entry as [c [la lo]].
  assert (Hp : exists price, dict_get prices c = Some price).
  { cbn in Hin. destruct Hin as [E|[E|[E|[E|[]]]]]; inversion E; subst;
      eexists; reflexivity. }
  destruct Hp as [price Hp].
  unfold city_rows.
  destruct (rng_integers 80 200 g) as [base g1] eqn:Eb.
  destruct (normal_array_run 0 20 (List.length ds) g1) as (noise & g2 & Hn & Hln & Hbn).
  destruct (normal_array_run 0 15 (List.length ds) g2) as (eps & g3 & He & Hle & _).
  rewrite (bind_run _ _ g g1 base) by (unfold draw; now rewrite Eb).
  rewrite (bind_run _ _ g1 g2 noise Hn).
  rewrite (bind_run _ _ g2 g2 price) by (unfold subscript; now rewrite Hp).
  rewrite (bind_run _ _ g2 g3 eps He).
  unfold ret. eexists _, g3. split; [reflexivity|].
  set (os := zip_with (order_count base) noise (linspace (-10) 10 (List.length ds))).
  assert (Hos : List.length os = List.length ds).
  { unfold os. rewrite zip_with_length; [exact Hln|].
    now rewrite linspace_length. }
  match goal with |- block_ok _ _ (map _ (zip3 _ _ ?rs)) =>
    assert (Hrs : List.length rs = List.length ds)
      by (rewrite zip_with_length; [exact Hos|now rewrite Hos, Hle]);
    destruct (zip3_rows c la lo ds os rs Hos Hrs) as (Hd & Ho & Hc)
  end.
  split; [exact Hd|]. split; [exact Hc|].
  intros C.
  match goal with |- Forall _ ?rows =>
    assert (Hall : Forall (fun o => 10 <= o) (map orders rows)) end.
  { rewrite Ho. unfold os.
    apply zip_with_Forall with
      (P := fun x => (Qabs (x - 0) <= 64 * 20)%Q)
      (Q := fun t => (-10 <= t <= 10)%Q).
    - intros x y Hx Hy. apply order_count_floor; try assumption.
      pose proof (integers_range 80 200 g ltac:(lia)) as Hr.
      now rewrite Eb in Hr.
    - apply Hbn; [exact C|discriminate].
    - apply linspace_trend_range. }
  now rewrite Forall_map in Hall.
Qed.

Lemma geo_point_run (entry : string * (Q * Q)) (g : G) :
  exists out g', geo_point entry g = Ok (out, g') /\ List.length out = 1%nat.
Proof.
  destruct entry as [c [la lo]]. unfold geo_point, bind, draw, ret.
  destruct (rng_normal 0 0.01 g) as [a g1].
  destruct (rng_normal 0 0.01 g1) as [b g2].
  destruct (rng_normal 100 40 g2) as [v g3].
  eexists _, g3. split; reflexivity.
Qed.

Lemma concat_length_const {B} (k : nat) (outs : list (list B)) :
  Forall (fun out => List.length out = k) outs ->
  List.length (List.concat outs) = (List.length outs * k)%nat.
Proof.
  induction 1 as [|out outs Ho _ IH]; [reflexivity|].
  cbn. rewrite length_app, IH, Ho. reflexivity.
Qed.

Lemma Forall2_right {A B} (P : B -> Prop) (xs : list A) (ys : list B) :
  Forall2 (fun _ y => P y) xs ys -> Forall P ys /\ List.length ys = List.length xs.
Proof.
  induction 1 as [|x y xs ys Hy _ [IH1 IH2]]; [split; [constructor|reflexivity]|].
  split; [now constructor|cbn; now rewrite IH2].
Qed.

Lemma city_points_run (entry : string * (Q * Q)) (g : G) :
  exists out g', city_points entry g = Ok (out, g') /\ List.length out = 400%nat.
Proof.
  unfold city_points.
  destruct (for_each_run (fun _ out => List.length out = 1%nat)
              (fun _ : nat => geo_point entry) (seq 0 400)
              (fun _ _ g0 => geo_point_run entry g0) g)
    as (outs & g' & Hrun & Hall).
  exists (List.concat outs), g'. split; [exact Hrun|].
  apply Forall2_right in Hall as [Hall Hlen].
  rewrite (concat_length_const 1 outs Hall), Hlen, length_seq. reflexivity.
Qed.

(** [make_data] returns for every argument: its table is one block per
    city, each block covering the date range, followed by the cloud. *)
Lemma make_data_run (now_ns seed days : Z) :
  exists blocks pts,
    make_data now_ns seed days = Ok (List.concat blocks, pts)
    /\ Forall2 (block_ok (dates_of (normalize now_ns) days)) cities blocks
    /\ List.length pts = 1600%nat.
Proof.
  unfold make_data, make_data_body.
  set (ds := dates_of (normalize now_ns) days).
  destruct (for_each_run (block_ok ds) (city_rows ds) cities
              (fun x Hx g0 => city_rows_run ds x g0 Hx) (default_rng seed))
    as (blocks & g1 & Hrows & Hblocks).
  destruct (for_each_run (fun _ out => List.length out = 400%nat)
              city_points cities
              (fun x _ g0 => city_points_run x g0) g1)
    as (clouds & g2 & Hpts & Hclouds).
  exists blocks, (List.concat clouds).
  rewrite (bind_run _ _ _ g1 (List.concat blocks) Hrows).
  rewrite (bind_run _ _ g1 g2 (List.concat clouds) Hpts). unfold ret.
  split; [reflexivity|]. split; [exact Hblocks|].
  apply Forall2_right in Hclouds as [Hall Hlen].
  rewrite (concat_length_const 400 clouds Hall), Hlen. reflexivity.
Qed.
End GeneratorFacts.

(** * The generator: claims *)

Lemma counter_contract : GeneratorContract Z.
Proof.
split.
- intros low high g Hlt. cbn.
  pose proof (Z.mod_pos_bound g (high - low) ltac:(lia)). lia.
- intros loc scale g Hs. cbn [rng_normal counter_rng fst].
  pose proof (Z.mod_pos_bound g 7 ltac:(lia)) as Hm.
  set (k := g mod 7 - 3) in *.
  assert (Hk : (-3 <= inject_Z k <= 3)%Q).
  { change 3%Q with (inject_Z 3). change (-3)%Q with (inject_Z (-3)).
    rewrite <- !Zle_Qle. lia. }
  apply Qabs_Qle_condition.
  destruct Hk as [Hk1 Hk2]. split; nra.
Qed.
#[export] Existing Instance counter_contract.

Section GeneratorClaims.
Context {G : Type} `{NumpyGenerator G}.

Lemma date_range_length (start stop : Z) :
  List.length (date_range start stop) = Z.to_nat (stop - start + 1).
Proof. unfold date_range. now rewrite length_map, length_seq. Qed.

Lemma dates_of_length (today days : Z) :
  List.length (dates_of today days) = Z.to_nat days.
Proof. unfold dates_of. rewrite date_range_length. f_equal. lia. Qed.

Lemma in_dates_of (today days d : Z) :
  In d (dates_of today days) <-> today - (days - 1) <= d <= today.
Proof.
  unfold dates_of, date_range. rewrite in_map_iff. split.
  - intros (i & <- & Hi). apply in_seq in Hi. lia.
  - intros Hd. exists (Z.to_nat (d - (today - (days - 1)))). split; [lia|].
    apply in_seq. lia.
Qed.

Lemma dates_of_NoDup (today days : Z) : NoDup (dates_of today days).
Proof.
  unfold dates_of, date_range. generalize (today - (days - 1)) as start.
  intros start. generalize (Z.to_nat (today - start + 1)) as n. intros n.
  assert (Hgen : forall k, NoDup (map (fun i => start + Z.of_nat i) (seq k n))).
  { induction n as [|n IH]; intros k; cbn; constructor; [|apply IH].
    intros Hin. apply in_map_iff in Hin as (i & E & Hi). apply in_seq in Hi. lia. }
  apply Hgen.
Qed.

Lemma list_prod_NoDup {A B} (l : list A) (l' : list B) :
  NoDup l -> NoDup l' -> NoDup (list_prod l l').
Proof.
  intros Hl Hl'. induction Hl as [|a l Ha _ IH]; cbn; [constructor|].
  apply NoDup_app; [|exact IH|].
  - clear -Hl'. induction Hl' as [|b l' Hb _ IH]; cbn; constructor; [|exact IH].
    intros Hin. apply in_map_iff in Hin as (b' & E & Hin). now inversion E; subst.
  - intros [x y] Hin Hin'. apply in_map_iff in Hin as (b & E & _).
    inversion E; subst. now apply in_prod_iff in Hin' as [Hin' _].
Qed.

Lemma cities_NoDup : NoDup (map fst cities).
Proof.
  cbn. repeat constructor; cbn; intros Hin;
    repeat (destruct Hin as [Hin|Hin]; [discriminate|]); exact Hin.
Qed.

(** The keys of the table are the product of the cities and the dates, in
    the order of the two nested loops. *)
Lemma blocks_keys (ds : list Z) (es : list (string * (Q * Q))) blocks :
  Forall2 (block_ok ds) es blocks ->
  map (fun r => (city r, date r)) (List.concat blocks) = list_prod (map fst es) ds.
Proof.
  induction 1 as [|e b es bs (Hd & Hc & _) _ IH]; [reflexivity|].
  cbn. rewrite map_app, IH. f_equal.
  rewrite <- Hd, map_map. apply map_ext_in. intros r Hr.
  rewrite Forall_forall in Hc. now rewrite (Hc r Hr).
Qed.

Lemma blocks_floor (ds : list Z) (es : list (string * (Q * Q))) blocks :
  GeneratorContract G ->
  Forall2 (block_ok ds) es blocks ->
  Forall (fun r => 10 <= orders r) (List.concat blocks).
Proof.
  intros C. induction 1 as [|e b es bs (_ & _ & Hf) _ IH]; [constructor|].
  cbn. apply Forall_app. split; [now apply Hf|exact IH].
Qed.

Lemma make_data_keys (now_ns seed days : Z) :
  exists df geo,
    make_data now_ns seed days = Ok (df, geo)
    /\ map (fun r => (city r, date r)) df
       = list_prod (map fst cities) (dates_of (normalize now_ns) days)
    /\ List.length geo = 1600%nat.
Proof.
  destruct (make_data_run now_ns seed days) as (blocks & pts & Hrun & Hb & Hp).
  exists (List.concat blocks), pts. split; [exact Hrun|].
  split; [now apply blocks_keys|exact Hp].
Qed.

(** No argument makes [make_data] raise; a day count of zero or less
    leaves the date range, and with it the table, empty. *)
Lemma make_data_nonpositive (now_ns seed days : Z) :
  days <= 0 ->
  exists geo, make_data now_ns seed days = Ok ([], geo)
              /\ List.length geo = 1600%nat.
Proof.
  intros Hd.
  destruct (make_data_keys now_ns seed days) as (df & geo & Hrun & Hk & Hg).
  exists geo. split; [|exact Hg].
  assert (E : dates_of (normalize now_ns) days = []).
  { apply length_zero_iff_nil. rewrite dates_of_length. lia. }
  rewrite E in Hk. cbn in Hk.
  destruct df; [exact Hrun|discriminate].
Qed.




End GeneratorClaims.






(** * Facts about the shaper's building blocks *)

Lemma filter_none {A} (f : A -> bool) (l : list A) :
  (forall x, In x l -> f x = false) -> filter f l = [].
Proof.
  induction l as [|x l IH]; intros Hf; [reflexivity|].
  cbn. rewrite (Hf x (or_introl eq_refl)). apply IH. intros y Hy. apply Hf. now right.
Qed.

Lemma series_max_spec (l : list Z) (m : Z) :
  series_max l = Some m -> In m l /\ Forall (fun d => d <= m) l.
Proof.
  revert m. induction l as [|d l IH]; intros m Hm; [discriminate|].
  cbn in Hm. destruct (series_max l) as [m'|] eqn:E.
  - injection Hm as <-. destruct (IH m' eq_refl) as [Hin Hall]. split.
    + destruct (Z.max_spec d m') as [[_ ->]|[_ ->]]; [now right|now left].
    + constructor; [lia|]. eapply Forall_impl; [|exact Hall]. cbn. intros; lia.
  - injection Hm as <-. destruct l; [|cbn in E; destruct (series_max l); discriminate].
    split; [now left|]. constructor; [lia|constructor].
Qed.

Lemma series_max_some (l : list Z) : l <> [] -> exists m, series_max l = Some m.
Proof.
  destruct l as [|d l]; [congruence|]. intros _. cbn.
  destruct (series_max l); eauto.
Qed.

Lemma key_eqb_eq (k k' : Z * string) : key_eqb k k' = true <-> k = k'.
Proof.
  destruct k as [d c], k' as [d' c']. unfold key_eqb. cbn.
  rewrite andb_true_iff, Z.eqb_eq, String.eqb_eq. split.
  - now intros [-> ->].
  - intros E. now inversion E.
Qed.

Lemma key_eqb_refl (k : Z * string) : key_eqb k k = true.
Proof. now apply key_eqb_eq. Qed.

Lemma key_eqb_sym (k k' : Z * string) : key_eqb k k' = key_eqb k' k.
Proof.
  destruct (key_eqb k k') eqn:E, (key_eqb k' k) eqn:E'; try reflexivity.
  - apply key_eqb_eq in E. subst. now rewrite key_eqb_refl in E'.
  - apply key_eqb_eq in E'. subst. now rewrite key_eqb_refl in E.
Qed.

(** ** Sorted distinct labels *)

Section SortUniqueFacts.
Context {A : Type} (cmp : A -> A -> comparison).
Hypothesis cmp_eq : forall x y, cmp x y = Eq -> x = y.
Hypothesis cmp_gt : forall x y, cmp x y = Gt -> cmp y x = Lt.
Hypothesis cmp_trans : forall x y z, cmp x y = Lt -> cmp y z = Lt -> cmp x z = Lt.
Hypothesis cmp_irrefl : forall x, cmp x x <> Lt.

Lemma in_insert_unique (x y : A) (l : list A) :
  In y (insert_unique cmp x l) <-> y = x \/ In y l.
Proof.
  induction l as [|z l IH]; cbn; [intuition|].
  destruct (cmp x z) eqn:E; cbn.
  - apply cmp_eq in E. subst. intuition.
  - intuition.
  - rewrite IH. intuition.
Qed.

Lemma in_sort_unique (y : A) (l : list A) : In y (sort_unique cmp l) <-> In y l.
Proof.
  induction l as [|x l IH]; cbn; [reflexivity|].
  rewrite in_insert_unique, IH. intuition.
Qed.

Lemma insert_unique_sorted (x : A) (l : list A) :
  StronglySorted (fun a b => cmp a b = Lt) l ->
  StronglySorted (fun a b => cmp a b = Lt) (insert_unique cmp x l).
Proof.
  induction 1 as [|z l Hs IH Hz]; cbn; [repeat constructor|].
  destruct (cmp x z) eqn:E.
  - now constructor.
  - constructor; [now constructor|]. constructor; [exact E|].
    eapply Forall_impl; [|exact Hz]. cbn. intros a Ha. now apply cmp_trans with z.
  - constructor; [exact IH|]. apply Forall_forall. intros a Ha.
    apply in_insert_unique in Ha as [->|Ha]; [now apply cmp_gt|].
    rewrite Forall_forall in Hz. now apply Hz.
Qed.

Lemma sort_unique_sorted (l : list A) :
  StronglySorted (fun a b => cmp a b = Lt) (sort_unique cmp l).
Proof.
  induction l as [|x l IH]; cbn; [constructor|now apply insert_unique_sorted].
Qed.

Lemma sort_unique_NoDup (l : list A) : NoDup (sort_unique cmp l).
Proof.
  pose proof (sort_unique_sorted l) as Hs.
  induction Hs as [|x s _ IH Hx]; constructor; [|exact IH].
  intros Hin. rewrite Forall_forall in Hx. now apply (cmp_irrefl x), Hx.
Qed.
End SortUniqueFacts.

Lemma in_date_index (d : Z) (l : list Z) : In d (sort_unique Z.compare l) <-> In d l.
Proof. apply in_sort_unique. intros x y. apply Z.compare_eq. Qed.

Lemma date_index_NoDup (l : list Z) : NoDup (sort_unique Z.compare l).
Proof.
  apply sort_unique_NoDup.
  - intros x y. apply Z.compare_eq.
  - intros x y E. apply Z.compare_gt_iff in E. now apply Z.compare_lt_iff.
  - intros x y z. rewrite !Z.compare_lt_iff. lia.
  - intros x. rewrite Z.compare_refl. discriminate.
Qed.

Lemma in_city_columns (c : string) (l : list string) :
  In c (sort_unique String.compare l) <-> In c l.
Proof. apply in_sort_unique. intros x y. apply String_as_OT.cmp_eq. Qed.

(** ** Group sums *)


Lemma agg_get_add (k k' : Z * string) (v : Q) (acc : list (Z * string * Q)) :
  agg_get (agg_add k v acc) k'
  = if key_eqb k' k
    then Some (match agg_get acc k with Some s => (s + v)%Q | None => v end)
    else agg_get acc k'.
Proof.
  induction acc as [|[k0 s] acc IH]; cbn.
  - reflexivity.
  - destruct (key_eqb k k0) eqn:E; cbn.
    + apply key_eqb_eq in E. subst k0. now destruct (key_eqb k' k).
    + rewrite IH. destruct (key_eqb k' k) eqn:E'.
      * apply key_eqb_eq in E'. subst k'. now rewrite E.
      * reflexivity.
Qed.

Lemma Qsum_snoc (l : list Q) (v : Q) : Qsum (l ++ [v]) = (Qsum l + v)%Q.
Proof. unfold Qsum. now rewrite fold_left_app. Qed.

Lemma agg_spec_step (m : Metric) acc fr x :
  agg_spec m acc fr ->
  agg_spec m (agg_add (obs_key x) (column m (snd x)) acc) (fr ++ [x]).
Proof.
  intros Hs k. rewrite agg_get_add. unfold cell_rows. rewrite filter_app. cbn.
  destruct (key_eqb k (obs_key x)) eqn:E.
  - apply key_eqb_eq in E. subst k. specialize (Hs (obs_key x)).
    unfold cell_rows in Hs. split; [now destruct (filter _ fr)|].
    rewrite map_app. cbn [map]. rewrite Qsum_snoc.
    destruct (agg_get acc (obs_key x)) as [s|].
    + destruct Hs as [_ Hs]. now rewrite Hs.
    + rewrite Hs. cbn. unfold Qsum. cbn. ring.
  - rewrite app_nil_r. apply Hs.
Qed.

Lemma groupby_sum_spec (m : Metric) (fr : Frame) : agg_spec m (groupby_sum m fr) fr.
Proof.
  unfold groupby_sum.
  assert (Hgen : forall acc done,
             agg_spec m acc done ->
             agg_spec m (fold_left (fun acc x =>
                           agg_add (date (snd x), city (snd x)) (column m (snd x)) acc)
                           fr acc) (done ++ fr)).
  { induction fr as [|x fr IH]; intros acc done Hs; cbn.
    - now rewrite app_nil_r.
    - replace (done ++ x :: fr) with ((done ++ [x]) ++ fr)
        by now rewrite <- app_assoc.
      apply IH. now apply agg_spec_step. }
  apply (Hgen [] []). intros k. reflexivity.
Qed.

Lemma agg_get_keys (acc : list (Z * string * Q)) (k : Z * string) :
  In k (map fst acc) <-> agg_get acc k <> None.
Proof.
  induction acc as [|[k0 s] acc IH]; cbn; [intuition|].
  destruct (key_eqb k k0) eqn:E.
  - apply key_eqb_eq in E. subst. split; [discriminate|now left].
  - rewrite <- IH. split; [|tauto]. intros [->|Hin]; [|exact Hin].
    now rewrite key_eqb_refl in E.
Qed.

Lemma cell_rows_nonempty (fr : Frame) (k : Z * string) :
  cell_rows fr k <> [] <-> In k (map obs_key fr).
Proof.
  unfold cell_rows. split.
  - intros Hne. destruct (filter _ fr) as [|x l] eqn:E; [congruence|].
    assert (Hx : In x (filter (fun x => key_eqb k (obs_key x)) fr))
      by (rewrite E; now left).
    apply filter_In in Hx as [Hx Hk]. apply key_eqb_eq in Hk. subst k.
    now apply in_map.
  - intros Hin Hnil. apply in_map_iff in Hin as (x & <- & Hx).
    assert (Hf : In x (filter (fun y => key_eqb (obs_key x) (obs_key y)) fr))
      by (apply filter_In; split; [exact Hx|apply key_eqb_refl]).
    now rewrite Hnil in Hf.
Qed.

Lemma groupby_sum_keys (m : Metric) (fr : Frame) (k : Z * string) :
  In k (map fst (groupby_sum m fr)) <-> In k (map obs_key fr).
Proof.
  rewrite agg_get_keys, <- cell_rows_nonempty.
  pose proof (groupby_sum_spec m fr k) as Hs.
  destruct (agg_get (groupby_sum m fr) k); split; intros Hx; try tauto; try congruence.
Qed.

(** ** Labels and cells of the pivot *)

Lemma pivot_index_iff (m : Metric) (fr : Frame) (d : Z) :
  In d (wt_index (pivot_table m fr)) <-> In d (dates fr).
Proof.
  cbn. rewrite in_date_index. unfold dates. rewrite !in_map_iff. split.
  - intros ([k s] & <- & Hin). cbn.
    assert (Hk : In k (map fst (groupby_sum m fr)))
      by (apply in_map_iff; exists (k, s); split; [reflexivity|exact Hin]).
    apply groupby_sum_keys, in_map_iff in Hk as (x & <- & Hx). now exists x.
  - intros (x & <- & Hx).
    assert (Hk : In (obs_key x) (map fst (groupby_sum m fr)))
      by (apply groupby_sum_keys; now apply in_map).
    apply in_map_iff in Hk as ([k s] & Hk & Hin). cbn in Hk. subst k.
    now exists (obs_key x, s).
Qed.

Lemma pivot_columns_iff (m : Metric) (fr : Frame) (c : string) :
  In c (wt_columns (pivot_table m fr)) <-> In c (map (fun x => city (snd x)) fr).
Proof.
  cbn. rewrite in_city_columns, !in_map_iff. split.
  - intros ([k s] & <- & Hin). cbn.
    assert (Hk : In k (map fst (groupby_sum m fr)))
      by (apply in_map_iff; exists (k, s); split; [reflexivity|exact Hin]).
    apply groupby_sum_keys, in_map_iff in Hk as (x & <- & Hx). now exists x.
  - intros (x & <- & Hx).
    assert (Hk : In (obs_key x) (map fst (groupby_sum m fr)))
      by (apply groupby_sum_keys; now apply in_map).
    apply in_map_iff in Hk as ([k s] & Hk & Hin). cbn in Hk. subst k.
    now exists (obs_key x, s).
Qed.

Lemma index_of_in {A} (eqb : A -> A -> bool) (x : A) (l : list A) :
  (forall a b, eqb a b = true <-> a = b) ->
  In x l -> exists i, index_of eqb x l = Some i /\ nth_error l i = Some x.
Proof.
  intros Heq. induction l as [|y l IH]; intros Hin; [destruct Hin|]. cbn.
  destruct (eqb y x) eqn:E.
  - apply Heq in E. subst. now exists 0%nat.
  - destruct IH as (i & Hi & Hn).
    { destruct Hin as [->|Hin]; [|exact Hin].
      assert (eqb x x = true) by now apply Heq. congruence. }
    exists (S i). now rewrite Hi.
Qed.

(** A cell of the pivot is the sum of the group of its date and city. *)
Lemma pivot_cell_agg (m : Metric) (fr : Frame) (d : Z) (c : string) :
  In d (wt_index (pivot_table m fr)) ->
  In c (wt_columns (pivot_table m fr)) ->
  wt_cell (pivot_table m fr) d c = Some (agg_get (groupby_sum m fr) (d, c)).
Proof.
  intros Hd Hc. unfold wt_cell.
  destruct (index_of_in Z.eqb d _ Z.eqb_eq Hd) as (i & -> & Hi).
  destruct (index_of_in String.eqb c _ String.eqb_eq Hc) as (j & -> & Hj).
  cbn [wt_values pivot_table]. cbn [wt_index wt_columns pivot_table] in Hi, Hj.
  rewrite nth_error_map, Hi. cbn. now rewrite nth_error_map, Hj.
Qed.

Lemma pivot_cell_spec (m : Metric) (fr : Frame) (d : Z) (c : string) :
  In d (wt_index (pivot_table m fr)) ->
  In c (wt_columns (pivot_table m fr)) ->
  (cell_rows fr (d, c) = [] -> wt_cell (pivot_table m fr) d c = Some None)
  /\ (cell_rows fr (d, c) <> [] ->
      exists s, wt_cell (pivot_table m fr) d c = Some (Some s)
                /\ (s == Qsum (map (fun x => column m (snd x)) (cell_rows fr (d, c))))%Q).
Proof.
  intros Hd Hc. rewrite (pivot_cell_agg m fr d c Hd Hc).
  pose proof (groupby_sum_spec m fr (d, c)) as Hs.
  destruct (agg_get (groupby_sum m fr) (d, c)) as [s|].
  - destruct Hs as [Hne Hs]. split; [congruence|]. intros _. now exists s.
  - split; [reflexivity|congruence].
Qed.

(** * The shaper: filtering and pivoting claims *)

Lemma df_view_window (df : list DailyRecord) (p : ViewParameters) (m : Z) :
  series_max (dates (df_selected df p)) = Some m ->
  df_view df p = filter (in_window m (days_back p)) (df_selected df p).
Proof.
  intros Hm. unfold df_view, cutoff. rewrite Hm. cbn [option_map].
  apply filter_ext_in. intros x Hx. unfold ge_cutoff, in_window.
  apply series_max_spec in Hm as [_ Hall]. rewrite Forall_forall in Hall.
  assert (Hle : date (snd x) <= m).
  { apply Hall. unfold dates. apply in_map_iff. now exists x. }
  apply Z.leb_le in Hle. rewrite Hle. now rewrite andb_true_r.
Qed.

Lemma window_count (lo w : Z) (l : list Z) :
  NoDup l -> Forall (fun d => lo <= d <= lo + (w - 1)) l ->
  (List.length l <= Z.to_nat w)%nat.
Proof.
  intros Hnd Hall.
  replace (Z.to_nat w) with (List.length (date_range lo (lo + (w - 1)))).
  - apply NoDup_incl_length; [exact Hnd|]. intros d Hd.
    rewrite Forall_forall in Hall. specialize (Hall d Hd).
    unfold date_range. apply in_map_iff. exists (Z.to_nat (d - lo)).
    split; [lia|]. apply in_seq. lia.
  - unfold date_range. rewrite length_map, length_seq. f_equal. lia.
Qed.

(** C2: with an empty city selection nothing is kept, the maximum date is
    [NaT], the comparison with it keeps nothing, and the pivot is the
    empty table; no step has a failure case. *)
Theorem C2_empty_selection (df : list DailyRecord) (p : ViewParameters) :
  city_filter p = [] ->
  df_selected df p = []
  /\ cutoff df p = None
  /\ df_view df p = []
  /\ pivot df p = mkWide [] [] []
  /\ alt_value df p = [].
Proof.
  intros Hsel.
  assert (H0 : df_selected df p = []).
  { unfold df_selected. rewrite Hsel. now apply filter_none. }
  assert (H1 : df_view df p = []) by (unfold df_view; now rewrite H0).
  repeat split; try assumption.
  - unfold cutoff. now rewrite H0.
  - unfold pivot. now rewrite H1.
  - unfold alt_value, smoothed. rewrite H1. now destruct (smooth p).
Qed.


(** The latest date of a selection need not be the latest date of the
    table: in the sample Delhi stops on day 3 and the table on day 8. *)
Example selected_max_is_not_table_max :
  series_max (dates (df_selected sample_df (mkView ["Delhi"%string] Orders 2 false)))
  = Some 3
  /\ series_max (dates (frame_of sample_df)) = Some 8.
Proof. split; reflexivity. Qed.


(** C1 (amended): with smoothing enabled the rolling mean is stored in the
    column [smoothed] and is what the [value] column of the Altair frame
    holds; the pivot is taken over the raw metric, so it is the table
    obtained with smoothing disabled and each of its cells with records is
    the sum of their raw metric values. *)
Theorem C1_pivot_keeps_raw_metric (df : list DailyRecord) (p : ViewParameters) :
  smooth p = true ->
  pivot df p = pivot df (mkView (city_filter p) (metric p) (days_back p) false)
  /\ (forall d c,
        In d (wt_index (pivot df p)) -> In c (wt_columns (pivot df p)) ->
        cell_rows (df_view df p) (d, c) <> [] ->
        exists s, wt_cell (pivot df p) d c = Some (Some s)
                  /\ (s == Qsum (map (fun x => column (metric p) (snd x))
                                     (cell_rows (df_view df p) (d, c))))%Q)
  /\ smoothed df p = Some (align (df_view df p) (smoothed_series df p))
  /\ alt_value df p = align (df_view df p) (smoothed_series df p).
Proof.
  intros Hs. split; [reflexivity|]. split.
  - intros d c Hd Hc Hne.
    now apply (pivot_cell_spec (metric p) (df_view df p) d c Hd Hc).
  - unfold alt_value, smoothed. rewrite Hs. split; reflexivity.
Qed.

(** C1 as stated fails: on the second day of a city the smoothed value is
    the mean of two days, and the cell of the pivot is the raw value. *)
Lemma C1_cell_is_not_smoothed :
  ~ (forall (df : list DailyRecord) (p : ViewParameters),
        smooth p = true ->
        forall i x s,
          nth_error (df_view df p) i = Some x ->
          smoothed_at df p i = Some s ->
          exists v, wt_cell (pivot df p) (date (snd x)) (city (snd x)) = Some (Some v)
                    /\ (v == s)%Q).
Proof.
  intros Hc.
  destruct (Hc sample_df (sample_view true) eq_refl 1%nat
               (1%nat, mkDailyRecord 1 "Pune" 20 1 18.5204 73.8567 "Friday")
               (30 # 2)%Q eq_refl eq_refl) as (v & Hv & Hq).
  vm_compute in Hv. injection Hv as <-. discriminate Hq.
Qed.

Lemma C1_witness :
  pivot sample_df (sample_view true) = pivot sample_df (sample_view false)
  /\ smoothed_at sample_df (sample_view true) 1 = Some (30 # 2)%Q
  /\ wt_cell (pivot sample_df (sample_view true)) 1 "Pune" = Some (Some 20%Q).
Proof.
  split; [|split; reflexivity].
  apply (C1_pivot_keeps_raw_metric sample_df (sample_view true) eq_refl).
Defined.

Lemma C2_witness :
  pivot sample_df (mkView [] Revenue 14 true) = mkWide [] [] [].
Proof.
  apply (C2_empty_selection sample_df (mkView [] Revenue 14 true)). reflexivity.
Defined.



(** * The shaper: smoothing *)

(** ** The order of [sort_values] *)

Lemma string_compare_refl (s : string) : String.compare s s = Eq.
Proof. now apply String_as_OT.cmp_eq. Qed.

Lemma string_compare_trans (a b c : string) :
  String.compare a b = Lt -> String.compare b c = Lt -> String.compare a c = Lt.
Proof.
  intros H1 H2. apply String_as_OT.cmp_lt.
  apply String_as_OT.cmp_lt in H1, H2. now apply String_as_OT.lt_trans with b.
Qed.

Lemma key_le_trans (a b c : nat * DailyRecord) :
  key_le a b -> key_le b c -> key_le a c.
Proof.
  unfold key_le, key_leb. intros Hab Hbc.
  destruct (String.compare (city (snd a)) (city (snd b))) eqn:E1; try discriminate;
    destruct (String.compare (city (snd b)) (city (snd c))) eqn:E2; try discriminate.
  - apply String.compare_eq_iff in E1, E2. rewrite E1, E2, string_compare_refl.
    apply Z.leb_le in Hab, Hbc. apply Z.leb_le. lia.
  - apply String.compare_eq_iff in E1. now rewrite E1, E2.
  - apply String.compare_eq_iff in E2. now rewrite <- E2, E1.
  - now rewrite (string_compare_trans _ _ _ E1 E2).
Qed.

Lemma key_le_total (a b : nat * DailyRecord) : key_leb a b = false -> key_le b a.
Proof.
  unfold key_le, key_leb. intros Hab.
  rewrite String.compare_antisym.
  destruct (String.compare (city (snd a)) (city (snd b))) eqn:E; try discriminate; cbn.
  - apply Z.leb_gt in Hab. apply Z.leb_le. lia.
  - reflexivity.
Qed.

Lemma insert_row_perm (x : nat * DailyRecord) (l : Frame) :
  Permutation (insert_row x l) (x :: l).
Proof.
  induction l as [|y l IH]; cbn; [reflexivity|].
  destruct (key_leb x y); [reflexivity|].
  rewrite IH. apply perm_swap.
Qed.

Lemma sort_values_perm (fr : Frame) : Permutation (sort_values fr) fr.
Proof.
  induction fr as [|x fr IH]; cbn; [reflexivity|].
  rewrite insert_row_perm. now constructor.
Qed.

Lemma insert_row_sorted (x : nat * DailyRecord) (l : Frame) :
  StronglySorted key_le l -> StronglySorted key_le (insert_row x l).
Proof.
  induction 1 as [|y l Hs IH Hy]; cbn; [repeat constructor|].
  destruct (key_leb x y) eqn:E.
  - constructor; [now constructor|]. constructor; [exact E|].
    eapply Forall_impl; [|exact Hy]. intros z Hz. now apply key_le_trans with y.
  - constructor; [exact IH|]. apply Forall_forall. intros z Hz.
    apply (Permutation_in _ (insert_row_perm x l)) in Hz as [<-|Hz].
    + now apply key_le_total.
    + rewrite Forall_forall in Hy. now apply Hy.
Qed.

Lemma sort_values_sorted (fr : Frame) : StronglySorted key_le (sort_values fr).
Proof.
  induction fr as [|x fr IH]; cbn; [constructor|now apply insert_row_sorted].
Qed.

Lemma filter_perm {A} (f : A -> bool) (l l' : list A) :
  Permutation l l' -> Permutation (filter f l) (filter f l').
Proof.
  induction 1 as [|x l l' _ IH|x y l|l l' l'' _ IH1 _ IH2]; cbn.
  - reflexivity.
  - destruct (f x); [now constructor|exact IH].
  - destruct (f x), (f y); try reflexivity. apply perm_swap.
  - now transitivity (filter f l').
Qed.

Lemma filter_sorted {A} (R : A -> A -> Prop) (f : A -> bool) (l : list A) :
  StronglySorted R l -> StronglySorted R (filter f l).
Proof.
  induction 1 as [|x l _ IH Hx]; cbn; [constructor|].
  destruct (f x); [|exact IH]. constructor; [exact IH|].
  apply Forall_forall. intros y Hy. apply filter_In in Hy as [Hy _].
  rewrite Forall_forall in Hx. now apply Hx.
Qed.

Lemma in_group_of (c : string) (fr : Frame) (x : nat * DailyRecord) :
  In x (group_of c fr) <-> In x fr /\ city (snd x) = c.
Proof. unfold group_of. now rewrite filter_In, String.eqb_eq. Qed.

(** Within one city the sorted frame is in ascending order of date. *)
Lemma group_sorted_by_date (c : string) (fr : Frame) :
  StronglySorted (fun a b => date (snd a) <= date (snd b))
                 (group_of c (sort_values fr)).
Proof.
  pose proof (filter_sorted key_le (fun x => String.eqb (city (snd x)) c)
                _ (sort_values_sorted fr)) as Hs.
  fold (group_of c (sort_values fr)) in Hs.
  assert (Hc : Forall (fun x => city (snd x) = c) (group_of c (sort_values fr))).
  { apply Forall_forall. intros x Hx. now apply in_group_of in Hx. }
  revert Hc. induction Hs as [|x l _ IH Hx]; intros Hc; [constructor|].
  apply Forall_cons_iff in Hc as [Hcx Hcl]. constructor; [now apply IH|].
  rewrite Forall_forall in *. intros y Hy. specialize (Hx y Hy).
  unfold key_le, key_leb in Hx. rewrite Hcx, (Hcl y Hy), string_compare_refl in Hx.
  now apply Z.leb_le.
Qed.

(** ** Index labels *)

Lemma frame_of_labels (rows : list DailyRecord) : NoDup (map fst (frame_of rows)).
Proof.
  unfold frame_of.
  assert (E : map fst (combine (seq 0 (List.length rows)) rows)
              = seq 0 (List.length rows)).
  { generalize 0%nat. induction rows as [|r rows IH]; intros n; cbn; [reflexivity|].
    now rewrite IH. }
  rewrite E. apply seq_NoDup.
Qed.

Lemma filter_labels {B} (f : nat * B -> bool) (l : list (nat * B)) :
  NoDup (map fst l) -> NoDup (map fst (filter f l)).
Proof.
  induction l as [|x l IH]; cbn; intros Hnd; [constructor|].
  inversion Hnd as [|? ? Hx Hl]; subst.
  destruct (f x); [|now apply IH]. cbn. constructor; [|now apply IH].
  intros Hin. apply Hx. apply in_map_iff in Hin as (y & Hy & Hin).
  apply filter_In in Hin as [Hin _]. apply in_map_iff. now exists y.
Qed.

Lemma df_view_labels (df : list DailyRecord) (p : ViewParameters) :
  NoDup (map fst (df_view df p)).
Proof.
  unfold df_view, df_selected. do 2 apply filter_labels. apply frame_of_labels.
Qed.

Lemma labels_inj {B} (l : list (nat * B)) (i : nat) (x y : B) :
  NoDup (map fst l) -> In (i, x) l -> In (i, y) l -> x = y.
Proof.
  induction l as [|[j z] l IH]; cbn; intros Hnd Hx Hy; [destruct Hx|].
  inversion Hnd as [|? ? Hj Hl]; subst.
  destruct Hx as [Ex|Hx], Hy as [Ey|Hy].
  - congruence.
  - inversion Ex; subst. exfalso. apply Hj. apply in_map_iff. now exists (i, y).
  - inversion Ey; subst. exfalso. apply Hj. apply in_map_iff. now exists (i, x).
  - now apply IH.
Qed.

Lemma series_get_in {V} (s : list (nat * V)) (i : nat) (v : V) :
  NoDup (map fst s) -> In (i, v) s -> series_get s i = Some v.
Proof.
  induction s as [|[j w] s IH]; cbn; intros Hnd Hin; [destruct Hin|].
  inversion Hnd as [|? ? Hj Hs]; subst.
  destruct Hin as [E|Hin].
  - inversion E; subst. now rewrite Nat.eqb_refl.
  - destruct (Nat.eqb j i) eqn:E; [|now apply IH].
    apply Nat.eqb_eq in E. subst j. exfalso. apply Hj.
    apply in_map_iff. now exists (i, v).
Qed.

(** ** Groups *)

Lemma in_unique (c : string) (l : list string) : In c (unique l) <-> In c l.
Proof.
  induction l as [|a l IH]; cbn; [reflexivity|].
  rewrite filter_In, IH, negb_true_iff, String.eqb_neq.
  destruct (string_dec a c); intuition.
Qed.

Lemma unique_NoDup (l : list string) : NoDup (unique l).
Proof.
  induction l as [|a l IH]; cbn; constructor.
  - rewrite filter_In, negb_true_iff, String.eqb_neq. tauto.
  - now apply NoDup_filter.
Qed.

Lemma map_fst_combine {A B} (l : list A) (l' : list B) :
  List.length l = List.length l' -> map fst (combine l l') = l.
Proof.
  revert l'. induction l as [|a l IH]; intros [|b l'] E; cbn in *;
    try discriminate; [reflexivity|]. now rewrite IH by lia.
Qed.

Lemma nth_error_combine {A B} (l : list A) (l' : list B) k a b :
  nth_error l k = Some a -> nth_error l' k = Some b ->
  nth_error (combine l l') k = Some (a, b).
Proof.
  revert l l'. induction k as [|k IH]; intros [|x l] [|y l'] Ha Hb; cbn in *;
    try discriminate.
  - congruence.
  - now apply IH.
Qed.

Lemma groups_labels (fr : Frame) (keys : list string) :
  NoDup (map fst fr) -> NoDup keys ->
  NoDup (flat_map (fun c => map fst (group_of c fr)) keys).
Proof.
  intros Hfr. induction 1 as [|c keys Hc _ IH]; cbn; [constructor|].
  apply NoDup_app; [now apply filter_labels|exact IH|].
  intros i Hi Hi'. apply in_map_iff in Hi as ([j x] & Ej & Hx). cbn in Ej. subst j.
  apply in_flat_map in Hi' as (c' & Hc' & Hi').
  apply in_map_iff in Hi' as ([j y] & Ej & Hy). cbn in Ej. subst j.
  apply in_group_of in Hx as [Hx Hcx], Hy as [Hy Hcy]. cbn in Hcx, Hcy.
  assert (x = y) by now apply (labels_inj fr i). subst y. congruence.
Qed.

Section Transform.
Context (m : Metric) (f : list Q -> list (option Q)).
Hypothesis f_length : forall s, List.length (f s) = List.length s.

Lemma transform_labels (fr : Frame) :
  NoDup (map fst fr) -> NoDup (map fst (groupby_transform m f fr)).
Proof.
  intros Hfr. unfold groupby_transform.
  rewrite flat_map_concat_map, concat_map, map_map, <- flat_map_concat_map.
  erewrite flat_map_ext.
  - apply groups_labels; [exact Hfr|apply unique_NoDup].
  - intros c. cbn. apply map_fst_combine. now rewrite f_length, !length_map.
Qed.

(** The value [transform] gives a row is the one [f] computes at the
    position of the row in its group. *)
Lemma transform_get (fr : Frame) (c : string) (k i : nat) (x : DailyRecord) (v : option Q) :
  NoDup (map fst fr) ->
  nth_error (group_of c fr) k = Some (i, x) ->
  nth_error (f (map (fun y => column m (snd y)) (group_of c fr))) k = Some v ->
  series_get (groupby_transform m f fr) i = Some v.
Proof.
  intros Hfr Hk Hv. apply series_get_in; [now apply transform_labels|].
  unfold groupby_transform. apply in_flat_map. exists c. split.
  - apply in_unique. apply nth_error_In, in_group_of in Hk as [Hin Hc].
    apply in_map_iff. now exists (i, x).
  - apply nth_error_In with k. apply nth_error_combine; [|exact Hv].
    now rewrite nth_error_map, Hk.
Qed.
End Transform.

(** ** Rolling windows *)

Lemma rolling_mean_length (w mp : nat) (s : list Q) :
  List.length (rolling_mean w mp s) = List.length s.
Proof. unfold rolling_mean. now rewrite length_map, length_seq. Qed.

Lemma window_at_length (w : nat) (s : list Q) (k : nat) :
  (k < List.length s)%nat ->
  List.length (window_at w s k) = Nat.min (S k) w.
Proof.
  intros Hk. unfold window_at. rewrite length_skipn, length_firstn. lia.
Qed.

Lemma rolling_mean_nth (s : list Q) (k : nat) :
  (k < List.length s)%nat ->
  nth_error (rolling_mean 7 1 s) k = Some (Some (mean (window_at 7 s k))).
Proof.
  intros Hk. unfold rolling_mean. rewrite nth_error_map, nth_error_seq.
  apply Nat.ltb_lt in Hk as Hk'. rewrite Hk'. cbn [option_map Nat.add].
  rewrite (window_at_length 7 s k Hk).
  destruct (1 <=? Nat.min (S k) 7)%nat eqn:E; [reflexivity|].
  apply Nat.leb_gt in E. lia.
Qed.

Lemma window_at_prefix (s : list Q) (k : nat) :
  (k < 7)%nat -> window_at 7 s k = firstn (S k) s.
Proof.
  intros Hk. unfold window_at. replace (S k - 7)%nat with 0%nat by lia. reflexivity.
Qed.

Lemma window_at_trailing (s : list Q) (k : nat) :
  (6 <= k)%nat -> window_at 7 s k = firstn 7 (skipn (k - 6) s).
Proof.
  intros Hk. unfold window_at. rewrite skipn_firstn_comm.
  replace (S k - 7)%nat with (k - 6)%nat by lia.
  now replace (S k - (k - 6))%nat with 7%nat by lia.
Qed.

Lemma mean_singleton (v : Q) : (mean [v] == v)%Q.
Proof. unfold mean, Qsum. cbn. field. Qed.

(** ** The smoothed column *)

Lemma sorted_view_labels (df : list DailyRecord) (p : ViewParameters) :
  NoDup (map fst (sort_values (df_view df p))).
Proof.
  apply Permutation_NoDup with (map fst (df_view df p)).
  - apply Permutation_map. symmetry. apply sort_values_perm.
  - apply df_view_labels.
Qed.

Lemma smoothed_at_row (df : list DailyRecord) (p : ViewParameters)
  (j i : nat) (x : DailyRecord) (v : option Q) :
  smooth p = true ->
  nth_error (df_view df p) j = Some (i, x) ->
  series_get (smoothed_series df p) i = Some v ->
  smoothed_at df p j = v.
Proof.
  intros Hs Hj Hv. unfold smoothed_at, smoothed. rewrite Hs.
  apply nth_error_nth. unfold align. rewrite nth_error_map, Hj. cbn.
  now rewrite Hv.
Qed.



(** * Generated tables under the shaper *)

Lemma frame_of_rows (rows : list DailyRecord) : map snd (frame_of rows) = rows.
Proof.
  unfold frame_of. generalize 0%nat.
  induction rows as [|r rows IH]; intros n; cbn; [reflexivity|]. now rewrite IH.
Qed.

Lemma in_frame_of (rows : list DailyRecord) (r : DailyRecord) :
  In r rows <-> exists i, In (i, r) (frame_of rows).
Proof.
  rewrite <- (frame_of_rows rows) at 1. rewrite in_map_iff. split.
  - intros ([i r'] & E & Hin). cbn in E. subst. now exists i.
  - intros [i Hin]. now exists (i, r).
Qed.

Lemma series_max_none (l : list Z) : series_max l = None -> l = [].
Proof.
  destruct l as [|d l]; [reflexivity|]. cbn. destruct (series_max l); discriminate.
Qed.

(** The maximum depends on the set of dates only. *)
Lemma series_max_set (l l' : list Z) :
  (forall d, In d l <-> In d l') -> series_max l = series_max l'.
Proof.
  intros Hset.
  destruct (series_max l) as [m|] eqn:E, (series_max l') as [m'|] eqn:E'.
  - apply series_max_spec in E as [Hin Hall], E' as [Hin' Hall'].
    rewrite Forall_forall in Hall, Hall'.
    pose proof (Hall' m (proj1 (Hset m) Hin)).
    pose proof (Hall m' (proj2 (Hset m') Hin')). f_equal. lia.
  - apply series_max_spec in E as [Hin _]. apply series_max_none in E'. subst l'.
    now apply Hset in Hin.
  - apply series_max_spec in E' as [Hin _]. apply series_max_none in E. subst l.
    now apply Hset in Hin.
  - reflexivity.
Qed.

Section GeneratedTables.
Context {G : Type} `{NumpyGenerator G}.

Lemma generated_row_iff (now_ns seed days : Z) df geo (c : string) (d : Z) :
  make_data now_ns seed days = Ok (df, geo) ->
  (exists r, In r df /\ city r = c /\ date r = d)
  <-> In c (map fst cities) /\ In d (dates_of (normalize now_ns) days).
Proof.
  intros Hrun.
  destruct (make_data_keys now_ns seed days) as (df' & geo' & Hrun' & Hk & _).
  rewrite Hrun in Hrun'. injection Hrun' as <- <-.
  rewrite <- in_prod_iff, <- Hk, in_map_iff. split.
  - intros (r & Hr & <- & <-). now exists r.
  - intros (r & E & Hr). inversion E; subst. now exists r.
Qed.

Lemma generated_group_dates (now_ns seed days : Z) df geo (c : string) (d : Z) :
  make_data now_ns seed days = Ok (df, geo) ->
  In c (map fst cities) ->
  In d (dates (group_of c (frame_of df))) <-> In d (dates_of (normalize now_ns) days).
Proof.
  intros Hrun Hc. unfold dates. rewrite in_map_iff. split.
  - intros ([i r] & <- & Hin). apply in_group_of in Hin as [Hin Hcity]. cbn in *.
    apply (generated_row_iff now_ns seed days df geo c (date r) Hrun).
    exists r. repeat split; [|exact Hcity]. apply in_frame_of. now exists i.
  - intros Hd.
    destruct (proj2 (generated_row_iff now_ns seed days df geo c d Hrun) (conj Hc Hd))
      as (r & Hr & Hcity & Hdate).
    apply in_frame_of in Hr as [i Hr]. exists (i, r). split; [exact Hdate|].
    apply in_group_of. now split.
Qed.

Lemma generated_frame_dates (now_ns seed days : Z) df geo (d : Z) :
  make_data now_ns seed days = Ok (df, geo) ->
  In d (dates (frame_of df)) <-> In d (dates_of (normalize now_ns) days).
Proof.
  intros Hrun. unfold dates. rewrite in_map_iff. split.
  - intros ([i r] & <- & Hin). cbn.
    apply (generated_row_iff now_ns seed days df geo (city r) (date r) Hrun).
    exists r. repeat split. apply in_frame_of. now exists i.
  - intros Hd.
    destruct (proj2 (generated_row_iff now_ns seed days df geo "Pune" d Hrun))
      as (r & Hr & _ & Hdate); [split; [now left|exact Hd]|].
    apply in_frame_of in Hr as [i Hr]. now exists (i, r).
Qed.

Lemma generated_selected_dates (now_ns seed days : Z) df geo (p : ViewParameters) (d : Z) :
  make_data now_ns seed days = Ok (df, geo) ->
  (exists c, In c (city_filter p) /\ In c (map fst cities)) ->
  In d (dates (df_selected df p)) <-> In d (dates (frame_of df)).
Proof.
  intros Hrun (c & Hsel & Hc). split.
  - unfold dates, df_selected. rewrite !in_map_iff.
    intros (x & <- & Hx). apply filter_In in Hx as [Hx _]. now exists x.
  - intros Hd. apply (generated_frame_dates now_ns seed days df geo d Hrun) in Hd.
    apply (generated_group_dates now_ns seed days df geo c d Hrun Hc) in Hd.
    unfold dates in *. apply in_map_iff in Hd as (x & <- & Hx).
    apply in_group_of in Hx as [Hx Hcity]. apply in_map_iff. exists x.
    split; [reflexivity|]. apply filter_In. split; [exact Hx|].
    unfold isin. apply existsb_exists. exists c. split; [exact Hsel|].
    now apply String.eqb_eq.
Qed.

End GeneratedTables.

(** With nothing selected the cutoff of line 70 is [NaT] while the latest
    date of the table is a date; both keep no row. *)
Example empty_selection_cutoff_is_NaT :
  exists df geo,
    make_data (G:=Z) 1000 42 3 = Ok (df, geo)
    /\ cutoff df (mkView [] Revenue 14 false) = None
    /\ cutoff_global df (mkView [] Revenue 14 false) = Some (-13)
    /\ df_view df (mkView [] Revenue 14 false) = [].
Proof.
  destruct (make_data (G:=Z) 1000 42 3) as [[df geo]|e] eqn:E; [|discriminate E].
  exists df, geo. vm_compute in E. injection E as <- <-.
  repeat split; reflexivity.
Qed.


(** * More of the generator *)

Lemma max0_nonneg (x : Q) : (0 <= max0 x)%Q.
Proof.
  unfold max0. destruct (Qle_bool x 0) eqn:E; [apply Qle_refl|].
  destruct (Qlt_le_dec 0 x) as [Hlt|Hle]; [now apply Qlt_le_weak|].
  apply Qle_bool_iff in Hle. congruence.
Qed.

Section GeneratorShape.
Context {G : Type} `{NumpyGenerator G}.

Lemma for_each_inv {A B} (P : B -> Prop) (body : A -> M (G:=G) (list B))
  (xs : list A) :
  (forall x g out g', In x xs -> body x g = Ok (out, g') -> Forall P out) ->
  forall g out g', for_each body xs g = Ok (out, g') -> Forall P out.
Proof.
  induction xs as [|x xs IH]; intros Hbody g out g' Hrun.
  - cbn in Hrun. unfold ret in Hrun. injection Hrun as <- _. constructor.
  - change (for_each body (x :: xs))
      with (o <- body x ;; rest <- for_each body xs ;; ret (o ++ rest)) in Hrun.
    unfold bind at 1 in Hrun.
    destruct (body x g) as [[o g1]|e] eqn:Eo; [|discriminate].
    unfold bind at 1 in Hrun.
    destruct (for_each body xs g1) as [[rest g2]|e] eqn:Er; [|discriminate].
    unfold ret in Hrun. injection Hrun as <- _.
    apply Forall_app. split.
    + apply (Hbody x g o g1); [now left|exact Eo].
    + apply (IH (fun y g0 o0 g0' Hy => Hbody y g0 o0 g0' (or_intror Hy)) g1 rest g2 Er).
Qed.

Lemma city_rows_attributes (ds : list Z) (entry : string * (Q * Q)) g rows g' :
  In entry cities ->
  city_rows ds entry g = Ok (rows, g') ->
  Forall row_attributes rows.
Proof.
  intros Hin Hrun. destruct entry as [c [la lo]]. unfold city_rows in Hrun.
  unfold bind at 1 in Hrun. unfold draw at 1 in Hrun.
  destruct (rng_integers 80 200 g) as [base g1].
  unfold bind at 1 in Hrun.
  destruct (normal_array 0 20 (List.length ds) g1) as [[noise g2]|e]; [|discriminate].
  unfold bind at 1 in Hrun.
  destruct (subscript prices c g2) as [[price g3]|e]; [|discriminate].
  unfold bind at 1 in Hrun.
  destruct (normal_array 0 15 (List.length ds) g3) as [[eps g4]|e]; [|discriminate].
  unfold ret in Hrun. injection Hrun as <- _.
  apply Forall_forall. intros r Hr. apply in_map_iff in Hr as ([[d o] v] & <- & _).
  split; [exact Hin|reflexivity].
Qed.

Lemma make_data_attributes (now_ns seed days : Z) df geo :
  make_data now_ns seed days = Ok (df, geo) -> Forall row_attributes df.
Proof.
  unfold make_data, make_data_body. intros Hrun.
  unfold bind at 1 in Hrun.
  destruct (for_each (city_rows _) cities (default_rng seed)) as [[rows g1]|e] eqn:Er;
    [|discriminate].
  unfold bind at 1 in Hrun.
  destruct (for_each city_points cities g1) as [[pts g2]|e]; [|discriminate].
  unfold ret in Hrun. injection Hrun as <- _.
  refine (for_each_inv row_attributes _ cities _ (default_rng seed) rows g1 Er).
  intros x g out g' Hx Hbody. exact (city_rows_attributes _ x g out g' Hx Hbody).
Qed.




Lemma today_in_dates (today days : Z) : 0 < days -> In today (dates_of today days).
Proof. intros Hd. apply in_dates_of. lia. Qed.

Lemma generated_max (now_ns seed days : Z) df geo :
  0 < days ->
  make_data now_ns seed days = Ok (df, geo) ->
  series_max (dates (frame_of df)) = Some (normalize now_ns).
Proof.
  intros Hd Hrun.
  assert (Ht : In (normalize now_ns) (dates (frame_of df))).
  { apply (generated_frame_dates now_ns seed days df geo _ Hrun).
    now apply today_in_dates. }
  destruct (series_max (dates (frame_of df))) as [m|] eqn:E.
  - apply series_max_spec in E as [Hin Hall]. rewrite Forall_forall in Hall.
    apply (generated_frame_dates now_ns seed days df geo _ Hrun), in_dates_of in Hin.
    specialize (Hall _ Ht). f_equal. lia.
  - apply series_max_none in E. rewrite E in Ht. destruct Ht.
Qed.

Lemma generated_cutoff (now_ns seed days : Z) df geo (p : ViewParameters) :
  0 < days ->
  make_data now_ns seed days = Ok (df, geo) ->
  (exists c, In c (city_filter p) /\ In c (map fst cities)) ->
  cutoff df p = Some (normalize now_ns - (days_back p - 1)).
Proof.
  intros Hd Hrun Hp. unfold cutoff.
  rewrite (series_max_set _ (dates (frame_of df))).
  - now rewrite (generated_max now_ns seed days df geo Hd Hrun).
  - intros d. now apply (generated_selected_dates now_ns seed days df geo p d Hrun).
Qed.


Lemma geo_point_shape (entry : string * (Q * Q)) (g : G) :
  exists out g', geo_point entry g = Ok (out, g')
                 /\ map geo_city out = [fst entry]
                 /\ Forall (fun pt => 0 <= volume pt)%Q out.
Proof.
  destruct entry as [c [la lo]]. unfold geo_point, bind, draw, ret.
  destruct (rng_normal 0 0.01 g) as [a g1].
  destruct (rng_normal 0 0.01 g1) as [b g2].
  destruct (rng_normal 100 40 g2) as [v g3].
  eexists _, g3. split; [reflexivity|]. split; [reflexivity|].
  constructor; [apply max0_nonneg|constructor].
Qed.

Lemma singles_concat {A} (c : string) (xs : list A) (outs : list (list GeoPoint)) :
  Forall2 (fun _ out => map geo_city out = [c]
                        /\ Forall (fun pt => 0 <= volume pt)%Q out) xs outs ->
  map geo_city (List.concat outs) = repeat c (List.length xs)
  /\ Forall (fun pt => 0 <= volume pt)%Q (List.concat outs).
Proof.
  induction 1 as [|x out xs outs [Hc Hv] _ [IH1 IH2]]; [split; constructor|].
  cbn. rewrite map_app, Hc, IH1. split; [reflexivity|].
  apply Forall_app. now split.
Qed.

Lemma city_points_shape (entry : string * (Q * Q)) (g : G) :
  exists out g', city_points entry g = Ok (out, g')
                 /\ map geo_city out = repeat (fst entry) 400
                 /\ Forall (fun pt => 0 <= volume pt)%Q out.
Proof.
  unfold city_points.
  destruct (for_each_run
              (fun _ out => map geo_city out = [fst entry]
                            /\ Forall (fun pt => 0 <= volume pt)%Q out)
              (fun _ : nat => geo_point entry) (seq 0 400)
              (fun _ _ g0 => geo_point_shape entry g0) g)
    as (outs & g' & Hrun & Hall).
  exists (List.concat outs), g'. split; [exact Hrun|].
  apply singles_concat in Hall. now rewrite length_seq in Hall.
Qed.

Lemma clouds_concat (es : list (string * (Q * Q))) (outs : list (list GeoPoint)) :
  Forall2 (fun e out => map geo_city out = repeat (fst e) 400
                        /\ Forall (fun pt => 0 <= volume pt)%Q out) es outs ->
  map geo_city (List.concat outs) = flat_map (fun e => repeat (fst e) 400) es
  /\ Forall (fun pt => 0 <= volume pt)%Q (List.concat outs).
Proof.
  induction 1 as [|e out es outs [Hc Hv] _ [IH1 IH2]]; [split; constructor|].
  cbn [List.concat flat_map]. rewrite map_app, Hc, IH1. split; [reflexivity|].
  apply Forall_app. now split.
Qed.

End GeneratorShape.



(** * More of the shaper *)

Lemma filter_all {A} (f : A -> bool) (l : list A) :
  (forall x, In x l -> f x = true) -> filter f l = l.
Proof.
  induction l as [|x l IH]; intros Hf; [reflexivity|].
  cbn. rewrite (Hf x (or_introl eq_refl)). f_equal. apply IH.
  intros y Hy. apply Hf. now right.
Qed.

Lemma sorted_impl {A} (R R' : A -> A -> Prop) (l : list A) :
  (forall a b, R a b -> R' a b) -> StronglySorted R l -> StronglySorted R' l.
Proof.
  intros HR. induction 1 as [|x l _ IH Hx]; constructor; [exact IH|].
  eapply Forall_impl; [|exact Hx]. apply HR.
Qed.

Lemma date_index_sorted (l : list Z) : StronglySorted Z.lt (sort_unique Z.compare l).
Proof.
  apply sorted_impl with (R := fun a b => Z.compare a b = Lt).
  - intros a b. apply Z.compare_lt_iff.
  - apply sort_unique_sorted.
    + intros x y. apply Z.compare_eq.
    + intros x y E. apply Z.compare_gt_iff in E. now apply Z.compare_lt_iff.
    + intros x y z. rewrite !Z.compare_lt_iff. lia.
Qed.

Lemma city_columns_sorted (l : list string) :
  StronglySorted (fun a b => String.ltb a b = true) (sort_unique String.compare l).
Proof.
  apply sorted_impl with (R := fun a b => String.compare a b = Lt).
  - intros a b E. unfold String.ltb. now rewrite E.
  - apply sort_unique_sorted.
    + intros x y. apply String.compare_eq_iff.
    + intros x y E. rewrite String.compare_antisym, E. reflexivity.
    + apply string_compare_trans.
Qed.

Lemma view_row_selected (df : list DailyRecord) (p : ViewParameters) x :
  In x (df_view df p) -> In x (frame_of df) /\ In (city (snd x)) (city_filter p).
Proof.
  unfold df_view, df_selected. intros Hx.
  apply filter_In in Hx as [Hx _]. apply filter_In in Hx as [Hx Hsel].
  split; [exact Hx|]. unfold isin in Hsel.
  apply existsb_exists in Hsel as (c & Hc & E). apply String.eqb_eq in E. now subst c.
Qed.

(** X6: the pivot is a well-formed table: its dates are in strictly
    ascending order, its columns in strictly ascending order of name, the
    dates and cities are exactly those that occur in the filtered frame,
    every column is a selected city, and the values form one row per date
    with one cell per column. *)
Theorem X6_pivot_well_formed (df : list DailyRecord) (p : ViewParameters) :
  StronglySorted Z.lt (wt_index (pivot df p))
  /\ StronglySorted (fun a b => String.ltb a b = true) (wt_columns (pivot df p))
  /\ (forall d, In d (wt_index (pivot df p))
                <-> exists x, In x (df_view df p) /\ date (snd x) = d)
  /\ (forall c, In c (wt_columns (pivot df p))
                <-> exists x, In x (df_view df p) /\ city (snd x) = c)
  /\ (forall c, In c (wt_columns (pivot df p)) -> In c (city_filter p))
  /\ List.length (wt_values (pivot df p)) = List.length (wt_index (pivot df p))
  /\ Forall (fun row => List.length row = List.length (wt_columns (pivot df p)))
            (wt_values (pivot df p)).
Proof.
  assert (Hcols : forall c, In c (wt_columns (pivot df p))
                            <-> exists x, In x (df_view df p) /\ city (snd x) = c).
  { intros c. unfold pivot. rewrite pivot_columns_iff, in_map_iff.
    split; intros (x & H1 & H2); exists x; tauto. }
  split; [apply date_index_sorted|]. split; [apply city_columns_sorted|].
  split; [|split; [exact Hcols|split; [|split]]].
  - intros d. unfold pivot. rewrite pivot_index_iff. unfold dates.
    rewrite in_map_iff. split; intros (x & H1 & H2); exists x; tauto.
  - intros c Hc. apply Hcols in Hc as (x & Hx & <-).
    now apply view_row_selected in Hx.
  - cbn. now rewrite length_map.
  - cbn. apply Forall_forall. intros row Hrow.
    apply in_map_iff in Hrow as (d & <- & _). now rewrite length_map.
Qed.

Lemma unique_key_cell (fr : Frame) (x : nat * DailyRecord) :
  NoDup (map obs_key fr) -> In x fr -> cell_rows fr (obs_key x) = [x].
Proof.
  unfold cell_rows. induction fr as [|y fr IH]; intros Hnd Hin; [destruct Hin|].
  cbn in Hnd. apply NoDup_cons_iff in Hnd as [Hy Hnd]. cbn.
  destruct Hin as [->|Hin].
  - rewrite key_eqb_refl. f_equal. apply filter_none. intros z Hz.
    destruct (key_eqb (obs_key x) (obs_key z)) eqn:E; [|reflexivity].
    apply key_eqb_eq in E. exfalso. apply Hy. rewrite E. now apply in_map.
  - destruct (key_eqb (obs_key x) (obs_key y)) eqn:E.
    + apply key_eqb_eq in E. exfalso. apply Hy. rewrite <- E. now apply in_map.
    + now apply IH.
Qed.

Lemma Qsum_singleton (v : Q) : (Qsum [v] == v)%Q.
Proof. unfold Qsum. cbn. ring. Qed.

Lemma pivot_round_trip (m : Metric) (fr : Frame) (x : nat * DailyRecord) :
  NoDup (map obs_key fr) -> In x fr ->
  exists v, wt_cell (pivot_table m fr) (date (snd x)) (city (snd x)) = Some (Some v)
            /\ (v == column m (snd x))%Q.
Proof.
  intros Hnd Hin.
  assert (Hd : In (date (snd x)) (wt_index (pivot_table m fr))).
  { apply pivot_index_iff. unfold dates. now apply (in_map (fun y => date (snd y))). }
  assert (Hc : In (city (snd x)) (wt_columns (pivot_table m fr))).
  { apply pivot_columns_iff. now apply (in_map (fun y => city (snd y))). }
  destruct (pivot_cell_spec m fr _ _ Hd Hc) as [_ Hsome].
  change (date (snd x), city (snd x)) with (obs_key x) in Hsome.
  rewrite (unique_key_cell fr x Hnd Hin) in Hsome.
  destruct Hsome as (s & Hcell & Hs); [discriminate|].
  exists s. split; [exact Hcell|]. rewrite Hs. apply Qsum_singleton.
Qed.

(** X7: when no two rows of the filtered frame share a date and a city,
    the pivot loses nothing: the cell at the date and city of a row holds
    the metric value of that row, and every number in the table is the
    value of a row with that date and city. *)
Theorem X7_pivot_round_trip (df : list DailyRecord) (p : ViewParameters) :
  NoDup (map obs_key (df_view df p)) ->
  (forall x, In x (df_view df p) ->
     exists v, wt_cell (pivot df p) (date (snd x)) (city (snd x)) = Some (Some v)
               /\ (v == column (metric p) (snd x))%Q)
  /\ (forall d c v, wt_cell (pivot df p) d c = Some (Some v) ->
        exists x, In x (df_view df p) /\ date (snd x) = d /\ city (snd x) = c
                  /\ (v == column (metric p) (snd x))%Q).
Proof.
  intros Hnd. split.
  - intros x Hx. now apply pivot_round_trip.
  - intros d c v Hcell.
    assert (Hd : In d (wt_index (pivot df p))).
    { unfold wt_cell in Hcell.
      destruct (index_of Z.eqb d (wt_index (pivot df p))) as [i|] eqn:E; [|discriminate].
      clear Hcell. revert i E. induction (wt_index (pivot df p)) as [|y l IH]; cbn;
        intros i E; [discriminate|].
      destruct (Z.eqb y d) eqn:Ey; [apply Z.eqb_eq in Ey; now left|].
      destruct (index_of Z.eqb d l) as [j|]; [|discriminate]. right. now apply (IH j). }
    assert (Hc : In c (wt_columns (pivot df p))).
    { unfold wt_cell in Hcell.
      destruct (index_of Z.eqb d (wt_index (pivot df p))); [|discriminate].
      destruct (index_of String.eqb c (wt_columns (pivot df p))) as [j|] eqn:E;
        [|discriminate].
      clear Hcell. revert j E. induction (wt_columns (pivot df p)) as [|y l IH]; cbn;
        intros j E; [discriminate|].
      destruct (String.eqb y c) eqn:Ey; [apply String.eqb_eq in Ey; now left|].
      destruct (index_of String.eqb c l) as [k|]; [|discriminate]. right. now apply (IH k). }
    destruct (pivot_cell_spec (metric p) (df_view df p) d c Hd Hc) as [Hnone Hsome].
    fold (pivot df p) in Hnone, Hsome.
    destruct (cell_rows (df_view df p) (d, c)) as [|x rest] eqn:E.
    { rewrite (Hnone eq_refl) in Hcell. discriminate. }
    assert (Hx : In x (cell_rows (df_view df p) (d, c))) by (rewrite E; now left).
    apply filter_In in Hx as [Hx Hk]. apply key_eqb_eq in Hk.
    destruct (pivot_round_trip (metric p) (df_view df p) x Hnd Hx) as (v' & Hv' & Hq).
    inversion Hk; subst d c. fold (pivot df p) in Hv'. rewrite Hv' in Hcell.
    injection Hcell as <-. exists x. repeat split; assumption.
Qed.

(** X8: a window of zero or fewer days keeps no row, whatever the table
    and the selection, and the pivot is then the empty table. *)
Theorem X8_empty_window (df : list DailyRecord) (p : ViewParameters) :
  days_back p <= 0 ->
  df_view df p = [] /\ pivot df p = mkWide [] [] [].
Proof.
  intros Hw.
  assert (Hv : df_view df p = []).
  { unfold df_view. apply filter_none. intros x Hx. unfold cutoff.
    destruct (series_max (dates (df_selected df p))) as [m|] eqn:E; [|reflexivity].
    apply series_max_spec in E as [_ Hall]. rewrite Forall_forall in Hall.
    cbn. apply Z.leb_gt.
    assert (date (snd x) <= m)
      by (apply Hall; unfold dates; now apply (in_map (fun y => date (snd y)))).
    lia. }
  split; [exact Hv|]. unfold pivot. now rewrite Hv.
Qed.

(** X9: with a window of one day or more, the filtered frame is empty only
    if no record belongs to a selected city: the rows of the latest
    selected date are always kept, and that date is in the index of the
    pivot. *)
Theorem X9_latest_date_kept (df : list DailyRecord) (p : ViewParameters) :
  1 <= days_back p ->
  df_selected df p <> [] ->
  exists m, series_max (dates (df_selected df p)) = Some m
            /\ (forall x, In x (df_selected df p) -> date (snd x) = m ->
                          In x (df_view df p))
            /\ In m (wt_index (pivot df p))
            /\ df_view df p <> [].
Proof.
  intros Hw Hne.
  destruct (series_max_some (dates (df_selected df p))) as [m Hm].
  { unfold dates. intros E. apply map_eq_nil in E. contradiction. }
  exists m. split; [exact Hm|].
  assert (Hkeep : forall x, In x (df_selected df p) -> date (snd x) = m ->
                            In x (df_view df p)).
  { intros x Hx Hd. unfold df_view, cutoff. rewrite Hm. apply filter_In.
    split; [exact Hx|]. cbn. apply Z.leb_le. lia. }
  apply series_max_spec in Hm as [Hin _]. unfold dates in Hin.
  apply in_map_iff in Hin as (x & Hd & Hx).
  pose proof (Hkeep x Hx Hd) as Hv.
  split; [exact Hkeep|]. split.
  - unfold pivot. apply pivot_index_iff. unfold dates. apply in_map_iff. now exists x.
  - intros E. rewrite E in Hv. destruct Hv.
Qed.

(** X10: widening the window never drops a row: with the same selection,
    every row kept with [days_back = w] is kept with any larger value. *)
Theorem X10_window_monotone (df : list DailyRecord) (p p' : ViewParameters) :
  city_filter p = city_filter p' ->
  days_back p <= days_back p' ->
  forall x, In x (df_view df p) -> In x (df_view df p').
Proof.
  intros Hsel Hw x. unfold df_view, cutoff, df_selected. rewrite <- Hsel.
  rewrite !filter_In. intros [Hx Hc]. split; [exact Hx|].
  destruct (series_max _) as [m|]; [|discriminate]. cbn in *.
  apply Z.leb_le in Hc. apply Z.leb_le. lia.
Qed.

Lemma isin_ext (sel sel' : list string) (x : nat * DailyRecord) :
  (In (city (snd x)) sel <-> In (city (snd x)) sel') -> isin sel x = isin sel' x.
Proof.
  intros Hiff. unfold isin.
  destruct (existsb _ sel) eqn:E, (existsb _ sel') eqn:E'; try reflexivity.
  - apply existsb_exists in E as (c & Hc & Heq). apply String.eqb_eq in Heq. subst c.
    apply Hiff in Hc.
    assert (existsb (String.eqb (city (snd x))) sel' = true)
      by (apply existsb_exists; exists (city (snd x)); split;
          [exact Hc|apply String.eqb_refl]).
    congruence.
  - apply existsb_exists in E' as (c & Hc & Heq). apply String.eqb_eq in Heq. subst c.
    apply Hiff in Hc.
    assert (existsb (String.eqb (city (snd x))) sel = true)
      by (apply existsb_exists; exists (city (snd x)); split;
          [exact Hc|apply String.eqb_refl]).
    congruence.
Qed.

(** X11: only the cities of a selection that occur in the table matter:
    two selections that agree on those cities, in any order, with repeats
    or with names the table does not have, give the same filtered frame
    and the same pivot.  An unknown name raises nothing. *)
Theorem X11_selection_as_a_set (df : list DailyRecord) (p p' : ViewParameters) :
  (forall c, In c (map city df) -> (In c (city_filter p) <-> In c (city_filter p'))) ->
  metric p = metric p' ->
  days_back p = days_back p' ->
  df_view df p = df_view df p' /\ pivot df p = pivot df p'.
Proof.
  intros Hsel Hm Hw.
  assert (Hs : df_selected df p = df_selected df p').
  { unfold df_selected. apply filter_ext_in. intros x Hx. apply isin_ext.
    apply Hsel. apply in_map. apply in_frame_of. destruct x as [i r]. now exists i. }
  assert (Hv : df_view df p = df_view df p').
  { unfold df_view, cutoff. now rewrite Hs, Hw. }
  split; [exact Hv|]. unfold pivot. now rewrite Hv, Hm.
Qed.

Lemma X7_witness :
  exists v, wt_cell (pivot sample_df (sample_view false)) 3 "Delhi" = Some (Some v)
            /\ (v == 40)%Q.
Proof.
  destruct (X7_pivot_round_trip sample_df (sample_view false)) as [Hfwd _].
  - vm_compute. repeat constructor; cbn; intros Hin;
      repeat (destruct Hin as [Hin|Hin]; [discriminate|]); exact Hin.
  - apply (Hfwd (9%nat, mkDailyRecord 3 "Delhi" 40 7 28.6139 77.2090 "Sunday")).
    vm_compute. tauto.
Defined.

Lemma X8_witness : pivot sample_df (mkView ["Pune"%string] Orders 0 false) = mkWide [] [] [].
Proof.
  apply (X8_empty_window sample_df (mkView ["Pune"%string] Orders 0 false)).
  cbn. lia.
Defined.

Lemma X9_witness : df_view sample_df (mkView ["Delhi"%string] Orders 1 false) <> [].
Proof.
  destruct (X9_latest_date_kept sample_df (mkView ["Delhi"%string] Orders 1 false))
    as (m & _ & _ & _ & Hne).
  - cbn. lia.
  - discriminate.
  - exact Hne.
Defined.

Lemma X10_witness :
  In (8%nat, mkDailyRecord 8 "Pune" 90 8 18.5204 73.8567 "Friday")
     (df_view sample_df (mkView ["Pune"%string] Orders 30 false)).
Proof.
  apply (X10_window_monotone sample_df (mkView ["Pune"%string] Orders 2 false)
           (mkView ["Pune"%string] Orders 30 false)).
  - reflexivity.
  - cbn. lia.
  - vm_compute. tauto.
Defined.

Lemma X11_witness :
  pivot sample_df (mkView ["Pune"; "Delhi"]%string Orders 14 false)
  = pivot sample_df (mkView ["Goa"; "Delhi"; "Pune"; "Delhi"]%string Orders 14 true).
Proof.
  apply (X11_selection_as_a_set sample_df
           (mkView ["Pune"; "Delhi"]%string Orders 14 false)
           (mkView ["Goa"; "Delhi"; "Pune"; "Delhi"]%string Orders 14 true)).
  - intros c Hc. vm_compute in Hc. cbn.
    repeat (destruct Hc as [<-|Hc]; [split; intros _; tauto|]). destruct Hc.
  - reflexivity.
  - reflexivity.
Defined.

(** * More of the smoothing *)

Lemma in_skipn {A} (n : nat) (l : list A) (x : A) : In x (skipn n l) -> In x l.
Proof. intros Hx. rewrite <- (firstn_skipn n l). apply in_or_app. now right. Qed.

Lemma in_firstn {A} (n : nat) (l : list A) (x : A) : In x (firstn n l) -> In x l.
Proof. intros Hx. rewrite <- (firstn_skipn n l). apply in_or_app. now left. Qed.

Lemma in_window_at (w : nat) (s : list Q) (k : nat) (v : Q) :
  In v (window_at w s k) -> In v s.
Proof. unfold window_at. intros Hv. eapply in_firstn, in_skipn, Hv. Qed.

Lemma fold_Qplus_ge (lo : Q) (l : list Q) (a : Q) :
  Forall (fun v => lo <= v)%Q l ->
  (a + inject_Z (Z.of_nat (List.length l)) * lo <= fold_left Qplus l a)%Q.
Proof.
  intros Hall. revert a. induction Hall as [|v l Hv _ IH]; intros a.
  - cbn. ring_simplify. apply Qle_refl.
  - cbn [fold_left List.length]. eapply Qle_trans; [|apply IH].
    rewrite Nat2Z.inj_succ, <- Z.add_1_r, inject_Z_plus.
    change (inject_Z 1) with 1%Q. ring_simplify.
    set (n := inject_Z (Z.of_nat (List.length l))). lra.
Qed.

Lemma fold_Qplus_le (hi : Q) (l : list Q) (a : Q) :
  Forall (fun v => v <= hi)%Q l ->
  (fold_left Qplus l a <= a + inject_Z (Z.of_nat (List.length l)) * hi)%Q.
Proof.
  intros Hall. revert a. induction Hall as [|v l Hv _ IH]; intros a.
  - cbn. ring_simplify. apply Qle_refl.
  - cbn [fold_left List.length]. eapply Qle_trans; [apply IH|].
    rewrite Nat2Z.inj_succ, <- Z.add_1_r, inject_Z_plus.
    change (inject_Z 1) with 1%Q. ring_simplify.
    set (n := inject_Z (Z.of_nat (List.length l))). lra.
Qed.

Lemma length_pos_Q {A} (l : list A) :
  l <> [] -> (0 < inject_Z (Z.of_nat (List.length l)))%Q.
Proof.
  intros Hne. change 0%Q with (inject_Z 0). rewrite <- Zlt_Qlt.
  destruct l; [congruence|cbn; lia].
Qed.

(** The mean of a window lies between any two bounds of its values. *)
Lemma mean_ge (lo : Q) (l : list Q) :
  l <> [] -> Forall (fun v => lo <= v)%Q l -> (lo <= mean l)%Q.
Proof.
  intros Hne Hall. unfold mean, Qsum.
  apply Qle_shift_div_l; [now apply length_pos_Q|].
  pose proof (fold_Qplus_ge lo l 0 Hall) as Hs. lra.
Qed.

Lemma mean_le (hi : Q) (l : list Q) :
  l <> [] -> Forall (fun v => v <= hi)%Q l -> (mean l <= hi)%Q.
Proof.
  intros Hne Hall. unfold mean, Qsum.
  apply Qle_shift_div_r; [now apply length_pos_Q|].
  pose proof (fold_Qplus_le hi l 0 Hall) as Hs. lra.
Qed.

(** What the assignment of lines 75-80 stores for a row of the view. *)
Lemma smoothed_entry (df : list DailyRecord) (p : ViewParameters)
  (i : nat) (x : DailyRecord) :
  In (i, x) (df_view df p) ->
  exists k,
    (k < List.length (group_of (city x) (sort_values (df_view df p))))%nat
    /\ series_get (smoothed_series df p) i
       = Some (Some (mean (window_at 7
            (map (fun y => column (metric p) (snd y))
                 (group_of (city x) (sort_values (df_view df p)))) k))).
Proof.
  intros Hin.
  assert (Hg : In (i, x) (group_of (city x) (sort_values (df_view df p)))).
  { apply in_group_of. split; [|reflexivity].
    apply (Permutation_in _ (Permutation_sym (sort_values_perm _))). exact Hin. }
  apply In_nth_error in Hg as [k Hk].
  assert (Hlt : (k < List.length (group_of (city x) (sort_values (df_view df p))))%nat)
    by (apply nth_error_Some; congruence).
  exists k. split; [exact Hlt|].
  apply transform_get with (c := city x) (k := k) (x := x).
  - intros s. apply rolling_mean_length.
  - apply sorted_view_labels.
  - exact Hk.
  - apply rolling_mean_nth. now rewrite length_map.
Qed.

Lemma window_nonempty (s : list Q) (k : nat) :
  (k < List.length s)%nat -> window_at 7 s k <> [].
Proof.
  intros Hk E. apply (f_equal (@List.length Q)) in E.
  rewrite (window_at_length 7 s k Hk) in E. cbn in E. lia.
Qed.

Lemma smoothed_within (P : Q -> Prop) (df : list DailyRecord) (p : ViewParameters) :
  (forall l, l <> [] -> Forall P l -> P (mean l)) ->
  smooth p = true ->
  (forall x, In x (df_view df p) -> P (column (metric p) (snd x))) ->
  forall j v, smoothed_at df p j = Some v -> P v.
Proof.
  intros Hmean Hs Hall j v Hv.
  destruct (nth_error (df_view df p) j) as [[i x]|] eqn:Hj.
  - destruct (smoothed_entry df p i x (nth_error_In _ _ Hj)) as (k & Hk & Hget).
    rewrite (smoothed_at_row df p j i x _ Hs Hj Hget) in Hv. injection Hv as <-.
    apply Hmean.
    + apply window_nonempty. now rewrite length_map.
    + apply Forall_forall. intros u Hu. apply in_window_at in Hu.
      apply in_map_iff in Hu as (y & <- & Hy). apply Hall.
      apply in_group_of in Hy as [Hy _].
      now apply (Permutation_in _ (sort_values_perm _)) in Hy.
  - unfold smoothed_at, smoothed in Hv. rewrite Hs in Hv.
    apply nth_error_None in Hj. rewrite nth_overflow in Hv; [discriminate|].
    unfold align. now rewrite length_map.
Qed.

(** X12: the [value] column handed to Altair has one entry for each row of
    the filtered frame and never holds NaN, with smoothing on or off:
    [min_periods=1] leaves no row without a mean. *)
Theorem X12_value_column_has_no_NaN (df : list DailyRecord) (p : ViewParameters) :
  List.length (alt_value df p) = List.length (df_view df p)
  /\ Forall (fun v => v <> None) (alt_value df p).
Proof.
  unfold alt_value, smoothed. destruct (smooth p) eqn:Hs.
  - unfold align. split; [now rewrite length_map|].
    apply Forall_forall. intros v Hv. apply in_map_iff in Hv as ([i x] & <- & Hx).
    destruct (smoothed_entry df p i x Hx) as (k & _ & Hget). cbn [fst].
    rewrite Hget. discriminate.
  - split; [now rewrite length_map|].
    apply Forall_forall. intros v Hv. apply in_map_iff in Hv as (x & <- & _).
    discriminate.
Qed.

(** X13: smoothing stays inside the range of the data: when every metric
    value of the filtered frame lies between [lo] and [hi], so does every
    entry of the [smoothed] column. *)
Theorem X13_smoothing_keeps_bounds (df : list DailyRecord) (p : ViewParameters)
  (lo hi : Q) :
  smooth p = true ->
  (forall x, In x (df_view df p) ->
             (lo <= column (metric p) (snd x) <= hi)%Q) ->
  forall j v, smoothed_at df p j = Some v -> (lo <= v <= hi)%Q.
Proof.
  intros Hs Hall. apply (smoothed_within (fun v => lo <= v <= hi)%Q df p); [|exact Hs|exact Hall].
  intros l Hne Hl. split.
  - apply mean_ge; [exact Hne|]. eapply Forall_impl; [|exact Hl]. cbn. tauto.
  - apply mean_le; [exact Hne|]. eapply Forall_impl; [|exact Hl]. cbn. tauto.
Qed.

Lemma X13_witness :
  (10 <= 350 # 7 <= 90)%Q.
Proof.
  apply (X13_smoothing_keeps_bounds sample_df (sample_view true) 10 90 eq_refl)
    with (j := 7%nat).
  - intros x Hx. vm_compute in Hx.
    repeat (destruct Hx as [<-|Hx]; [split; discriminate|]). destruct Hx.
  - reflexivity.
Defined.

Section GeneratedSmoothing.
Context {G : Type} `{NumpyGenerator G}.

End GeneratedSmoothing.


(** * Generated tables through the pivot *)

Section SortedExt.
Context {A : Type} (R : A -> A -> Prop).
Hypothesis R_asym : forall a b, R a b -> R b a -> False.

(** A strictly sorted list is determined by its elements. *)
Lemma sorted_ext (l l' : list A) :
  StronglySorted R l -> StronglySorted R l' ->
  (forall x, In x l <-> In x l') -> l = l'.
Proof.
  intros Hs. revert l'. induction Hs as [|a l Hs IH Ha]; intros l' Hs' Hset.
  - destruct l' as [|b l']; [reflexivity|].
    destruct (proj2 (Hset b) (or_introl eq_refl)).
  - destruct l' as [|b l']; [destruct (proj1 (Hset a) (or_introl eq_refl))|].
    apply StronglySorted_inv in Hs' as [Hs' Hb].
    rewrite Forall_forall in Ha, Hb.
    assert (E : a = b).
    { destruct (proj1 (Hset a) (or_introl eq_refl)) as [E|Hin]; [now symmetry|].
      destruct (proj2 (Hset b) (or_introl eq_refl)) as [E|Hin']; [exact E|].
      destruct (R_asym a b (Ha b Hin') (Hb a Hin)). }
    subst b. f_equal. apply IH; [exact Hs'|]. intros x. split; intros Hx.
    + destruct (proj1 (Hset x) (or_intror Hx)) as [E|Hin]; [|exact Hin].
      subst x. destruct (R_asym a a (Ha a Hx) (Ha a Hx)).
    + destruct (proj2 (Hset x) (or_intror Hx)) as [E|Hin]; [|exact Hin].
      subst x. destruct (R_asym a a (Hb a Hx) (Hb a Hx)).
Qed.
End SortedExt.

Lemma dates_of_sorted (today days : Z) : StronglySorted Z.lt (dates_of today days).
Proof.
  unfold dates_of, date_range. generalize (today - (days - 1)) as start. intros start.
  generalize (Z.to_nat (today - start + 1)) as n. intros n.
  assert (Hgen : forall k, StronglySorted Z.lt
                             (map (fun i => start + Z.of_nat i) (seq k n))).
  { induction n as [|n IH]; intros k; cbn; constructor; [apply IH|].
    apply Forall_forall. intros d Hd. apply in_map_iff in Hd as (i & <- & Hi).
    apply in_seq in Hi. lia. }
  apply Hgen.
Qed.

Lemma string_ltb_asym (a b : string) :
  String.ltb a b = true -> String.ltb b a = true -> False.
Proof.
  unfold String.ltb. rewrite (String.compare_antisym a b).
  destruct (String.compare b a); cbn; discriminate.
Qed.

Lemma map_keys_NoDup {A K K'} (f : A -> K) (f' : A -> K') (l : list A) :
  (forall a b, f' a = f' b -> f a = f b) ->
  NoDup (map f l) -> NoDup (map f' l).
Proof.
  intros Hf. induction l as [|a l IH]; cbn; intros Hnd; [constructor|].
  apply NoDup_cons_iff in Hnd as [Ha Hnd]. constructor; [|now apply IH].
  intros Hin. apply Ha. apply in_map_iff in Hin as (b & E & Hb).
  apply in_map_iff. exists b. split; [now apply Hf|exact Hb].
Qed.

Lemma filter_keys_NoDup {A K} (f : A -> K) (g : A -> bool) (l : list A) :
  NoDup (map f l) -> NoDup (map f (filter g l)).
Proof.
  induction l as [|a l IH]; cbn; intros Hnd; [constructor|].
  apply NoDup_cons_iff in Hnd as [Ha Hnd].
  destruct (g a); [|now apply IH]. cbn. constructor; [|now apply IH].
  intros Hin. apply Ha. apply in_map_iff in Hin as (b & E & Hb).
  apply filter_In in Hb as [Hb _]. apply in_map_iff. now exists b.
Qed.

Section GeneratedPivot.
Context {G : Type} `{NumpyGenerator G}.

Lemma generated_view_keys (now_ns seed days : Z) df geo (p : ViewParameters) :
  make_data now_ns seed days = Ok (df, geo) ->
  NoDup (map obs_key (df_view df p)).
Proof.
  intros Hrun. unfold df_view, df_selected. do 2 apply filter_keys_NoDup.
  destruct (make_data_keys now_ns seed days) as (df' & geo' & Hrun' & Hk & _).
  rewrite Hrun in Hrun'. injection Hrun' as <- <-.
  assert (Hnd : NoDup (map (fun r => (city r, date r)) df)).
  { rewrite Hk. apply list_prod_NoDup; [apply cities_NoDup|apply dates_of_NoDup]. }
  rewrite <- (frame_of_rows df) in Hnd. rewrite map_map in Hnd.
  apply (map_keys_NoDup _ obs_key _) in Hnd; [exact Hnd|].
  intros a b E. unfold obs_key in E. now inversion E.
Qed.

(** A generated row with a selected city and a date inside the window is
    a row of the view. *)
Lemma generated_view_row (now_ns seed days : Z) df geo (p : ViewParameters)
  (c : string) (d : Z) :
  0 < days ->
  make_data now_ns seed days = Ok (df, geo) ->
  In c (city_filter p) -> In c (map fst cities) ->
  normalize now_ns - (days - 1) <= d <= normalize now_ns ->
  normalize now_ns - (days_back p - 1) <= d ->
  exists x, In x (df_view df p) /\ date (snd x) = d /\ city (snd x) = c.
Proof.
  intros Hd Hrun Hsel Hc Hrange Hwin.
  destruct (proj2 (generated_row_iff now_ns seed days df geo c d Hrun))
    as (r & Hr & Hcity & Hdate); [split; [exact Hc|now apply in_dates_of]|].
  apply in_frame_of in Hr as [i Hr]. exists (i, r). split; [|now split].
  unfold df_view.
  rewrite (generated_cutoff now_ns seed days df geo p Hd Hrun)
    by (exists c; now split).
  apply filter_In. split.
  - unfold df_selected. apply filter_In. split; [exact Hr|].
    unfold isin. apply existsb_exists. exists c. split; [exact Hsel|].
    cbn. now apply String.eqb_eq.
  - cbn. apply Z.leb_le. lia.
Qed.

Lemma generated_view_dates (now_ns seed days : Z) df geo (p : ViewParameters) x :
  0 < days ->
  make_data now_ns seed days = Ok (df, geo) ->
  In x (df_view df p) ->
  In (city (snd x)) (city_filter p) /\ In (city (snd x)) (map fst cities)
  /\ normalize now_ns - (days - 1) <= date (snd x) <= normalize now_ns
  /\ normalize now_ns - (days_back p - 1) <= date (snd x).
Proof.
  intros Hd Hrun Hx.
  pose proof (view_row_selected df p x Hx) as [Hfr Hsel].
  assert (Hgen : In (city (snd x)) (map fst cities)
                 /\ In (date (snd x)) (dates_of (normalize now_ns) days)).
  { apply (generated_row_iff now_ns seed days df geo _ _ Hrun).
    exists (snd x). repeat split. apply in_frame_of. exists (fst x).
    now destruct x. }
  destruct Hgen as [Hc Hdate]. apply in_dates_of in Hdate.
  repeat split; try assumption; try lia.
  unfold df_view in Hx. apply filter_In in Hx as [_ Hge].
  rewrite (generated_cutoff now_ns seed days df geo p Hd Hrun) in Hge
    by (exists (city (snd x)); now split).
  cbn in Hge. now apply Z.leb_le.
Qed.

Lemma generated_pivot_index (now_ns seed days : Z) df geo (p : ViewParameters) :
  0 < days -> 0 < days_back p ->
  make_data now_ns seed days = Ok (df, geo) ->
  (exists c, In c (city_filter p) /\ In c (map fst cities)) ->
  wt_index (pivot df p)
  = dates_of (normalize now_ns) (Z.min days (days_back p)).
Proof.
  intros Hd Hw Hrun (c & Hsel & Hc).
  apply (sorted_ext Z.lt).
  - intros a b. lia.
  - apply date_index_sorted.
  - apply dates_of_sorted.
  - intros d. unfold pivot. rewrite pivot_index_iff, in_dates_of. unfold dates.
    rewrite in_map_iff. split.
    + intros (x & <- & Hx).
      destruct (generated_view_dates now_ns seed days df geo p x Hd Hrun Hx)
        as (_ & _ & Hr & Hwin). lia.
    + intros Hr.
      destruct (generated_view_row now_ns seed days df geo p c d Hd Hrun Hsel Hc)
        as (x & Hx & Hdx & _); [lia|lia|]. now exists x.
Qed.

Lemma generated_pivot_columns (now_ns seed days : Z) df geo (p : ViewParameters)
  (c : string) :
  0 < days -> 0 < days_back p ->
  make_data now_ns seed days = Ok (df, geo) ->
  In c (wt_columns (pivot df p)) <-> In c (city_filter p) /\ In c (map fst cities).
Proof.
  intros Hd Hw Hrun. unfold pivot. rewrite pivot_columns_iff, in_map_iff. split.
  - intros (x & <- & Hx).
    destruct (generated_view_dates now_ns seed days df geo p x Hd Hrun Hx)
      as (Hsel & Hc & _). now split.
  - intros [Hsel Hc].
    destruct (generated_view_row now_ns seed days df geo p c (normalize now_ns)
                Hd Hrun Hsel Hc) as (x & Hx & _ & Hcx); [lia|lia|]. now exists x.
Qed.


End GeneratedPivot.


(** * The bar chart table and the default controls *)

Lemma index_of_app_r {A} (eqb : A -> A -> bool) (x : A) (l1 l2 : list A) :
  (forall a b, eqb a b = true <-> a = b) ->
  ~ In x l1 ->
  index_of eqb x (l1 ++ l2)
  = option_map (Nat.add (List.length l1)) (index_of eqb x l2).
Proof.
  intros Heq. induction l1 as [|y l1 IH]; intros Hnin; cbn.
  - now destruct (index_of eqb x l2).
  - destruct (eqb y x) eqn:E.
    + apply Heq in E. subst y. exfalso. apply Hnin. now left.
    + rewrite IH by (intros Hin; apply Hnin; now right).
      now destruct (index_of eqb x l2).
Qed.

Lemma sorted_app_lt {A} (R : A -> A -> Prop) (l1 l2 : list A) :
  StronglySorted R (l1 ++ l2) -> forall a b, In a l1 -> In b l2 -> R a b.
Proof.
  induction l1 as [|x l1 IH]; cbn; intros Hs a b Ha Hb; [destruct Ha|].
  apply StronglySorted_inv in Hs as [Hs Hx]. destruct Ha as [->|Ha].
  - rewrite Forall_forall in Hx. apply Hx. apply in_or_app. now right.
  - now apply IH.
Qed.

(** X17: the table of the bar chart is the end of the pivot: it has the
    same columns, at most 30 rows, every date it drops is earlier than
    every date it keeps, and the cells of the dates it keeps are the
    cells of the pivot. *)
Theorem X17_bar_table_is_latest_rows (df : list DailyRecord) (p : ViewParameters) :
  let dropped := firstn (List.length (wt_index (pivot df p)) - 30)
                        (wt_index (pivot df p)) in
  List.length (wt_index (bar_table df p))
  = Nat.min 30 (List.length (wt_index (pivot df p)))
  /\ wt_columns (bar_table df p) = wt_columns (pivot df p)
  /\ wt_index (pivot df p) = dropped ++ wt_index (bar_table df p)
  /\ (forall a d, In a dropped -> In d (wt_index (bar_table df p)) -> a < d)
  /\ (forall d c, In d (wt_index (bar_table df p)) ->
                  wt_cell (bar_table df p) d c = wt_cell (pivot df p) d c).
Proof.
  intros dropped. set (t := pivot df p).
  set (k := (List.length (wt_index t) - 30)%nat).
  assert (Hsplit : wt_index t = dropped ++ wt_index (bar_table df p)).
  { unfold dropped, bar_table, wt_tail, tail_rows. cbn [wt_index].
    now rewrite firstn_skipn. }
  assert (Hsorted : StronglySorted Z.lt (dropped ++ wt_index (bar_table df p))).
  { rewrite <- Hsplit. apply date_index_sorted. }
  assert (Hlt : forall a d, In a dropped -> In d (wt_index (bar_table df p)) -> a < d).
  { intros a d. now apply (sorted_app_lt Z.lt). }
  split; [|split; [reflexivity|split; [exact Hsplit|split; [exact Hlt|]]]].
  - unfold bar_table, wt_tail, tail_rows. cbn [wt_index]. rewrite length_skipn.
    fold t. lia.
  - intros d c Hd. unfold wt_cell at 2. fold t. rewrite Hsplit.
    rewrite (index_of_app_r Z.eqb d dropped _ Z.eqb_eq)
      by (intros Hin; specialize (Hlt d d Hin Hd); lia).
    unfold wt_cell at 1.
    destruct (index_of Z.eqb d (wt_index (bar_table df p))) as [i|]; [|reflexivity].
    cbn [option_map]. change (wt_columns (bar_table df p)) with (wt_columns t).
    destruct (index_of String.eqb c (wt_columns t)) as [j|]; [|reflexivity].
    unfold bar_table, wt_tail, tail_rows. cbn [wt_values]. fold t.
    rewrite nth_error_skipn.
    replace (List.length (wt_values t)) with (List.length (wt_index t))
      by (unfold t, pivot; cbn; now rewrite length_map).
    replace (List.length dropped) with k; [reflexivity|].
    unfold dropped. fold t. fold k. rewrite length_firstn. unfold k. lia.
Qed.

(** ** [sorted] *)

Lemma string_leb_trans (a b c : string) :
  String.leb a b = true -> String.leb b c = true -> String.leb a c = true.
Proof.
  unfold String.leb. intros Hab Hbc.
  destruct (String.compare a b) eqn:E1; try discriminate;
    destruct (String.compare b c) eqn:E2; try discriminate.
  - apply String.compare_eq_iff in E1, E2. subst. now rewrite string_compare_refl.
  - apply String.compare_eq_iff in E1. subst. now rewrite E2.
  - apply String.compare_eq_iff in E2. subst. now rewrite E1.
  - now rewrite (string_compare_trans _ _ _ E1 E2).
Qed.

Lemma string_leb_neq_ltb (a b : string) :
  String.leb a b = true -> a <> b -> String.ltb a b = true.
Proof.
  unfold String.leb, String.ltb. intros Hle Hne.
  destruct (String.compare a b) eqn:E; try discriminate; [|reflexivity].
  apply String.compare_eq_iff in E. contradiction.
Qed.

Lemma insert_str_perm (s : string) (l : list string) :
  Permutation (insert_str s l) (s :: l).
Proof.
  induction l as [|t l IH]; cbn; [reflexivity|].
  destruct (String.leb s t); [reflexivity|]. rewrite IH. apply perm_swap.
Qed.

Lemma py_sorted_perm (l : list string) : Permutation (py_sorted l) l.
Proof.
  induction l as [|s l IH]; cbn; [reflexivity|].
  rewrite insert_str_perm. now constructor.
Qed.

Lemma insert_str_sorted (s : string) (l : list string) :
  StronglySorted (fun a b => String.leb a b = true) l ->
  StronglySorted (fun a b => String.leb a b = true) (insert_str s l).
Proof.
  induction 1 as [|t l Hs IH Ht]; cbn; [repeat constructor|].
  destruct (String.leb s t) eqn:E.
  - constructor; [now constructor|]. constructor; [exact E|].
    eapply Forall_impl; [|exact Ht]. intros u Hu. now apply string_leb_trans with t.
  - constructor; [exact IH|]. apply Forall_forall. intros u Hu.
    apply (Permutation_in _ (insert_str_perm s l)) in Hu as [<-|Hu].
    + destruct (String.leb_total s t) as [E'|E']; [congruence|exact E'].
    + rewrite Forall_forall in Ht. now apply Ht.
Qed.

Lemma py_sorted_sorted (l : list string) :
  StronglySorted (fun a b => String.leb a b = true) (py_sorted l).
Proof.
  induction l as [|s l IH]; cbn; [constructor|now apply insert_str_sorted].
Qed.

Lemma sorted_strict (l : list string) :
  StronglySorted (fun a b => String.leb a b = true) l -> NoDup l ->
  StronglySorted (fun a b => String.ltb a b = true) l.
Proof.
  induction 1 as [|s l _ IH Hs]; intros Hnd; constructor.
  - apply IH. now apply NoDup_cons_iff in Hnd.
  - apply NoDup_cons_iff in Hnd as [Hs' _]. rewrite Forall_forall in *.
    intros t Ht. apply string_leb_neq_ltb; [now apply Hs|].
    intros ->. contradiction.
Qed.

Lemma in_city_options (df : list DailyRecord) (c : string) :
  In c (city_options df) <-> In c (map city df).
Proof.
  unfold city_options. rewrite <- (in_unique c (map city df)). split.
  - apply Permutation_in, py_sorted_perm.
  - apply Permutation_in. symmetry. apply py_sorted_perm.
Qed.

Lemma city_options_sorted (df : list DailyRecord) :
  StronglySorted (fun a b => String.ltb a b = true) (city_options df).
Proof.
  unfold city_options. apply sorted_strict; [apply py_sorted_sorted|].
  apply (Permutation_NoDup (Permutation_sym (py_sorted_perm _))), unique_NoDup.
Qed.

(** X18: the options of the city multiselect are the cities of the table,
    each once, in ascending order; with the default selection, which is
    all of them, the city filter of line 69 keeps every row. *)
Theorem X18_default_selection_keeps_all (df : list DailyRecord) (p : ViewParameters) :
  city_filter p = city_options df ->
  (forall c, In c (city_options df) <-> In c (map city df))
  /\ StronglySorted (fun a b => String.ltb a b = true) (city_options df)
  /\ df_selected df p = frame_of df.
Proof.
  intros Hsel. split; [apply in_city_options|]. split; [apply city_options_sorted|].
  unfold df_selected. apply filter_all. intros [i r] Hx.
  unfold isin. apply existsb_exists. exists (city r). split; [|apply String.eqb_refl].
  rewrite Hsel. apply in_city_options. apply in_map. apply in_frame_of. now exists i.
Qed.

Lemma four_cities_sorted :
  StronglySorted (fun a b => String.ltb a b = true)
                 ["Bengaluru"; "Delhi"; "Mumbai"; "Pune"]%string.
Proof. repeat constructor. Qed.

Lemma four_cities_iff (c : string) :
  In c ["Bengaluru"; "Delhi"; "Mumbai"; "Pune"]%string <-> In c (map fst cities).
Proof. cbn. tauto. Qed.

Section FirstLoad.
Context {G : Type} `{NumpyGenerator G}.

Lemma generated_cities (now_ns seed days : Z) df geo (c : string) :
  0 < days ->
  make_data now_ns seed days = Ok (df, geo) ->
  In c (map city df) <-> In c (map fst cities).
Proof.
  intros Hd Hrun. rewrite in_map_iff. split.
  - intros (r & <- & Hr).
    apply (generated_row_iff now_ns seed days df geo (city r) (date r) Hrun).
    now exists r.
  - intros Hc.
    destruct (proj2 (generated_row_iff now_ns seed days df geo c (normalize now_ns) Hrun))
      as (r & Hr & Hcity & _); [split; [exact Hc|now apply today_in_dates]|].
    now exists r.
Qed.

End FirstLoad.

Lemma X18_witness :
  df_selected sample_df (default_view sample_df) = frame_of sample_df.
Proof.
  apply (X18_default_selection_keeps_all sample_df (default_view sample_df)).
  reflexivity.
Defined.


(** * The rolling window on generated tables *)

Lemma group_dates_strict (c : string) (g : Frame) :
  StronglySorted (fun a b => date (snd a) <= date (snd b)) g ->
  NoDup (map obs_key g) ->
  Forall (fun x => city (snd x) = c) g ->
  StronglySorted Z.lt (map (fun x => date (snd x)) g).
Proof.
  induction 1 as [|x g _ IH Hx]; cbn; intros Hnd Hc; constructor.
  - apply IH; [now apply NoDup_cons_iff in Hnd|now apply Forall_cons_iff in Hc].
  - apply NoDup_cons_iff in Hnd as [Hk _]. apply Forall_cons_iff in Hc as [Hcx Hcg].
    rewrite Forall_forall in *. intros d Hd.
    apply in_map_iff in Hd as (y & <- & Hy).
    pose proof (Hx y Hy) as Hle.
    destruct (Z.eq_dec (date (snd x)) (date (snd y))) as [E|E]; [|lia].
    exfalso. apply Hk. apply in_map_iff. exists y. split; [|exact Hy].
    unfold obs_key. now rewrite E, Hcx, (Hcg y Hy).
Qed.

Section GeneratedWindow.
Context {G : Type} `{NumpyGenerator G}.

End GeneratedWindow.

